(** * Curvesim: cryptoswap invariant math and parameter-sampler setters

    A shallow embedding of

    - [curvesim/pool/cryptoswap/calcs/tricrypto_ng.py]: [geometric_mean],
      [lp_price], [get_p], the two definitions of [newton_D], [_cbrt] and
      [_snekmate_log_2];
    - [curvesim/iterators/param_samplers/pool_mixins.py]: the [setters]
      tables of the three pool mixins and the stableswap balance setters;
    - [test/conftest.py]: the [mainnet_3pool_state] fixture.

    Python integers are unbounded, so they are [Z]; [//] and [%] round
    towards minus infinity exactly as [Z.div] and [Z.modulo] do, and [>>]
    and [<<] are [Z.shiftr] and [Z.shiftl].  Every Python exception the
    code can raise is a constructor of [exn]; a function that can raise
    returns a [result]. *)

From Stdlib Require Import ZArith Lia String List Bool.
From stdpp Require Import base list sorting strings gmap.

Local Open Scope Z_scope.

(** ** Exceptions and the error monad *)

Inductive exn : Type :=
| CalculationError (msg : string)
| CurvesimValueError (msg : string)
| AssertionError (msg : string)
| IndexError
| ZeroDivisionError.

Inductive result (A : Type) : Type :=
| Ok (a : A)
| Raise (e : exn).

Arguments Ok {A} a.
Arguments Raise {A} e.

Definition bind {A B : Type} (m : result A) (k : A -> result B) : result B :=
  match m with
  | Ok a => k a
  | Raise e => Raise e
  end.

Notation "'let!' x ':=' m 'in' k" := (bind m (fun x => k))
  (at level 10, x name, m at level 100, k at level 200).

Definition is_ok {A : Type} (m : result A) : bool :=
  match m with Ok _ => true | Raise _ => false end.

(** [a // b]: floor division, raising [ZeroDivisionError] on [b = 0]. *)
Definition floordiv (a b : Z) : result Z :=
  if b =? 0 then Raise ZeroDivisionError else Ok (a / b).

Infix "//?" := floordiv (at level 40, left associativity).

(** [x[i]] for a non-negative index. *)
Definition getitem (x : list Z) (i : nat) : result Z :=
  match x !! i with
  | Some v => Ok v
  | None => Raise IndexError
  end.

(** [assert c, msg]; a bare [assert c] carries the empty message. *)
Definition assert (c : bool) (msg : string) : result unit :=
  if c then Ok tt else Raise (AssertionError msg).

(** [sorted(x, reverse=True)] on integers. *)
Definition Zdesc (a b : Z) : Prop := b <= a.

#[global] Instance Zdesc_dec : RelDecision Zdesc.
Proof. intros a b. unfold Zdesc. apply Z_le_dec. Defined.

#[global] Instance Zdesc_total : Total Zdesc.
Proof. intros a b. unfold Zdesc. lia. Qed.

#[global] Instance Zdesc_trans : Transitive Zdesc.
Proof. intros a b c. unfold Zdesc. lia. Qed.

#[global] Instance Zdesc_antisymm : AntiSymm (=) Zdesc.
Proof. intros a b. unfold Zdesc. lia. Qed.

Definition sorted_desc (x : list Z) : list Z := merge_sort Zdesc x.

Definition sum (x : list Z) : Z := fold_left Z.add x 0.

(** ** Module constants *)

Definition NOISE_FEE : Z := 10 ^ 5.
Definition MIN_GAMMA : Z := 10 ^ 10.
Definition MAX_GAMMA : Z := 2 * 10 ^ 16.
Definition EXP_PRECISION : Z := 10 ^ 10.
Definition PRECISION : Z := 10 ^ 18.
Definition A_MULTIPLIER : Z := 10000.

(** ** [geometric_mean] *)

(** The inner loop [for _x in x: tmp = tmp * _x // D]. *)
Fixpoint geometric_mean_tmp (x : list Z) (D tmp : Z) : result Z :=
  match x with
  | [] => Ok tmp
  | _x :: rest =>
      let! tmp' := (tmp * _x) //? D in
      geometric_mean_tmp rest D tmp'
  end.

(** One pass of the body of [for _ in range(255)]: the new [D]. *)
Definition geometric_mean_step (n_coins : Z) (x : list Z) (D : Z) : result Z :=
  let! tmp := geometric_mean_tmp x D (10 ^ 18) in
  (D * ((n_coins - 1) * 10 ^ 18 + tmp)) //? (n_coins * 10 ^ 18).

Definition geometric_mean_done (D_prev D : Z) : bool :=
  let diff := Z.abs (D_prev - D) in
  (diff <=? 1) || (diff * 10 ^ 18 <? D).

Fixpoint geometric_mean_loop (fuel : nat) (n_coins : Z) (x : list Z) (D : Z)
  : result Z :=
  match fuel with
  | O => Raise (CalculationError "Did not converge")
  | S fuel' =>
      let! D' := geometric_mean_step n_coins x D in
      if geometric_mean_done D D' then Ok D'
      else geometric_mean_loop fuel' n_coins x D'
  end.

Definition geometric_mean (unsorted_x : list Z) (sort : bool) : result Z :=
  let n_coins := Z.of_nat (length unsorted_x) in
  let x := if sort then sorted_desc unsorted_x else unsorted_x in
  let! D := getitem x 0 in
  geometric_mean_loop 255 n_coins x D.

(** ** [lp_price] *)

Definition lp_price (virtual_price : Z) (price_oracle : list Z) : result Z :=
  Raise (CalculationError "LP price calc doesn't support more than 3 coins").

(** ** [_snekmate_log_2] *)

(** One of the eight [if value >> k != 0: ...] blocks, on the pair
    [(value, result)]. *)
Definition log_2_stage (k : Z) (vr : Z * Z) : Z * Z :=
  let '(value, result) := vr in
  if negb (Z.shiftr value k =? 0) then (Z.shiftr value k, result + k)
  else (value, result).

Definition _snekmate_log_2 (x : Z) (roundup : bool) : Z :=
  let vr := log_2_stage 128 (x, 0) in
  let vr := log_2_stage 64 vr in
  let vr := log_2_stage 32 vr in
  let vr := log_2_stage 16 vr in
  let vr := log_2_stage 8 vr in
  let vr := log_2_stage 4 vr in
  let vr := log_2_stage 2 vr in
  let '(value, result) := vr in
  let result := if negb (Z.shiftr value 1 =? 0) then result + 1 else result in
  if roundup && (Z.shiftl 1 result <? x) then result + 1 else result.

(** ** [_cbrt] *)

Definition CBRT_BOUND : Z := 115792089237316195423570985008687907853269.

(** [a = (2 * a + xx // (a * a)) // 3] *)
Definition cbrt_newton (xx a : Z) : result Z :=
  let! q := xx //? (a * a) in
  Ok ((2 * a + q) / 3).

Definition _cbrt (x : Z) : result Z :=
  let xx :=
    if CBRT_BOUND * 10 ^ 18 <=? x then x
    else if CBRT_BOUND <=? x then x * 10 ^ 18
    else x * 10 * 36 in
  let log2x := _snekmate_log_2 xx false in
  let remainder := log2x mod 3 in
  let a := (2 ^ (log2x / 3) * 1260 ^ remainder) / 1000 ^ remainder in
  let! a := cbrt_newton xx a in
  let! a := cbrt_newton xx a in
  let! a := cbrt_newton xx a in
  let! a := cbrt_newton xx a in
  let! a := cbrt_newton xx a in
  let! a := cbrt_newton xx a in
  let! a := cbrt_newton xx a in
  Ok (if CBRT_BOUND * 10 ^ 18 <=? x then a * 10 ^ 12
      else if CBRT_BOUND <=? x then a * 10 ^ 6
      else a).

(** ** [get_p] *)

Definition get_p (xp : list Z) (D A gamma : Z) : result (list Z) :=
  let! _ := assert ((10 ^ 17 <=? D) && (D <=? 10 ^ 15 * 10 ^ 18)) "" in
  let N := Z.of_nat (length xp) in
  let! xp0 := getitem xp 0 in
  let! xp1 := getitem xp 1 in
  let! t := (N ^ N * xp0 * xp1) //? D in
  let! xp2 := getitem xp 2 in
  let! t := (t * xp2) //? D in
  let! K0 := (t * 10 ^ 36) //? D in
  let GK0 :=
    2 * K0 ^ 2 / 10 ^ 36 * K0 / 10 ^ 36
    + (gamma + 10 ^ 18) ^ 2
    - K0 ^ 2 / 10 ^ 36 * (2 * gamma + 3 * 10 ^ 18) / 10 ^ 18 in
  let NNAG2 := A * gamma ^ 2 / A_MULTIPLIER in
  let! t := (NNAG2 * xp0) //? D in
  let denominator := GK0 + t * K0 / 10 ^ 36 in
  let! t := (NNAG2 * xp1) //? D in
  let! t := (xp0 * (GK0 + t * K0 / 10 ^ 36)) //? xp1 in
  let! p_xy := (t * 10 ^ 18) //? denominator in
  let! t := (NNAG2 * xp2) //? D in
  let! t := (xp0 * (GK0 + t * K0 / 10 ^ 36)) //? xp2 in
  let! p_xz := (t * 10 ^ 18) //? denominator in
  Ok [p_xy; p_xz].

(** The locals [K0], [GK0], [NNAG2] and [denominator] of [get_p], for a
    non-zero [D]. *)
Definition get_p_K0 (N xp0 xp1 xp2 D : Z) : Z :=
  N ^ N * xp0 * xp1 / D * xp2 / D * 10 ^ 36 / D.

Definition get_p_GK0 (K0 gamma : Z) : Z :=
  2 * K0 ^ 2 / 10 ^ 36 * K0 / 10 ^ 36
  + (gamma + 10 ^ 18) ^ 2
  - K0 ^ 2 / 10 ^ 36 * (2 * gamma + 3 * 10 ^ 18) / 10 ^ 18.

Definition get_p_NNAG2 (A gamma : Z) : Z := A * gamma ^ 2 / A_MULTIPLIER.

(** [GK0 + NNAG2 * v // D * K0 // 10**36] *)
Definition get_p_term (K0 GK0 NNAG2 v D : Z) : Z :=
  GK0 + NNAG2 * v / D * K0 / 10 ^ 36.

Definition D_in_get_p_range (D : Z) : Prop := 10 ^ 17 <= D <= 10 ^ 15 * 10 ^ 18.

(** ** [newton_D]

    The module defines [newton_D] twice.  Python binds the name to the
    later definition (source lines 202-327), which is [newton_D] below;
    the earlier one (lines 121-199), unreachable under that name, is
    [Shadowed.newton_D]. *)

(** The test [diff * 10**14 < max(10**16, D)] shared by both loops. *)
Definition newton_D_done (D_prev D : Z) : bool :=
  Z.abs (D - D_prev) * 10 ^ 14 <? Z.max (10 ^ 16) D.

Module Shadowed.

(** [for i in range(1, n_coins): frac = ...; assert frac >= 10**11],
    over the balances after the first. *)
Fixpoint check_ratios (x0 : Z) (rest : list Z) : result unit :=
  match rest with
  | [] => Ok tt
  | xi :: rest' =>
      let! frac := (xi * 10 ^ 18) //? x0 in
      let! _ := assert (10 ^ 11 <=? frac) "" in
      check_ratios x0 rest'
  end.

(** [for _x in x: K0 = K0 * _x * n_coins // D] *)
Fixpoint K0_loop (n_coins D : Z) (x : list Z) (K0 : Z) : result Z :=
  match x with
  | [] => Ok K0
  | _x :: rest =>
      let! K0' := (K0 * _x * n_coins) //? D in
      K0_loop n_coins D rest K0'
  end.

Definition newton_D_step (ANN gamma n_coins : Z) (x : list Z) (S D : Z)
  : result Z :=
  let! K0 :=
    if n_coins =? 2 then
      let! x0 := getitem x 0 in
      let! t := (10 ^ 18 * n_coins ^ 2 * x0) //? D in
      let! x1 := getitem x 1 in
      (t * x1) //? D
    else K0_loop n_coins D x (10 ^ 18) in
  let _g1k0 := Z.abs (gamma + 10 ^ 18 - K0) + 1 in
  let! t := (10 ^ 18 * D) //? gamma in
  let! t := (t * _g1k0) //? gamma in
  let! mul1 := (t * _g1k0 * A_MULTIPLIER) //? ANN in
  let! mul2 := (2 * 10 ^ 18 * n_coins * K0) //? _g1k0 in
  let! t := (mul1 * n_coins) //? K0 in
  let neg_fprime := (S + S * mul2 / 10 ^ 18) + t - mul2 * D / 10 ^ 18 in
  let! D_plus := (D * (neg_fprime + S)) //? neg_fprime in
  let! D_minus := (D * D) //? neg_fprime in
  let! D_minus :=
    if 10 ^ 18 >? K0 then
      let! q := mul1 //? neg_fprime in
      let! r := (D * q / 10 ^ 18 * (10 ^ 18 - K0)) //? K0 in
      Ok (D_minus + r)
    else
      let! q := mul1 //? neg_fprime in
      let! r := (D * q / 10 ^ 18 * (K0 - 10 ^ 18)) //? K0 in
      Ok (D_minus - r) in
  Ok (if D_plus >? D_minus then D_plus - D_minus
      else (D_minus - D_plus) / 2).

(** [for _x in x: frac = _x * 10**18 // D; if frac < 10**16 or
    frac > 10**20: raise CalculationError(...)] *)
Fixpoint check_safe (D : Z) (x : list Z) : result unit :=
  match x with
  | [] => Ok tt
  | _x :: rest =>
      let! frac := (_x * 10 ^ 18) //? D in
      if (frac <? 10 ^ 16) || (10 ^ 20 <? frac)
      then Raise (CalculationError "Unsafe value for x[i]")
      else check_safe D rest
  end.

Fixpoint newton_D_loop (fuel : nat) (ANN gamma n_coins : Z) (x : list Z)
  (S D : Z) : result Z :=
  match fuel with
  | O => Raise (CalculationError "Did not converge")
  | Datatypes.S fuel' =>
      let! D' := newton_D_step ANN gamma n_coins x S D in
      if newton_D_done D D' then
        let! _ := check_safe D' x in
        Ok D'
      else newton_D_loop fuel' ANN gamma n_coins x S D'
  end.

Definition newton_D (ANN gamma : Z) (x_unsorted : list Z) : result Z :=
  let n_coins := Z.of_nat (length x_unsorted) in
  let min_A := n_coins ^ n_coins * A_MULTIPLIER / 10 in
  let max_A := n_coins ^ n_coins * A_MULTIPLIER * 100000 in
  if negb ((min_A <=? ANN) && (ANN <=? max_A)) then
    Raise (CurvesimValueError "Unsafe value for A")
  else if negb ((MIN_GAMMA <=? gamma) && (gamma <=? MAX_GAMMA)) then
    Raise (CurvesimValueError "Unsafe value for gamma")
  else
    let x := sorted_desc x_unsorted in
    let! x0 := getitem x 0 in
    let! _ := assert ((10 ^ 9 <=? x0) && (x0 <=? 10 ^ 15 * 10 ^ 18)) "" in
    let! _ := check_ratios x0 (tail x) in
    let! g := geometric_mean x false in
    let D := n_coins * g in
    let S := sum x in
    newton_D_loop 255 ANN gamma n_coins x S D.

End Shadowed.

(** The initial guess of the later definition: [N_COINS *
    geometric_mean(x, False)] without a prior [K0], a cube root with one. *)
Definition newton_D_guess (N_COINS : Z) (x : list Z) (S K0_prev : Z)
  : result Z :=
  if K0_prev =? 0 then
    let! g := geometric_mean x false in
    Ok (N_COINS * g)
  else
    let scale :=
      if 10 ^ 36 <? S then (10 ^ 36, 27 * 10 ^ 12)
      else if 10 ^ 24 <? S then (10 ^ 24, 27 * 10 ^ 6)
      else (10 ^ 18, 27) in
    let! x0 := getitem x 0 in
    let! x1 := getitem x 1 in
    let! x2 := getitem x 2 in
    let! t := (x0 * x1 / fst scale * x2) //? K0_prev in
    _cbrt (t * snd scale).

Definition newton_D_step (ANN gamma N_COINS : Z) (x : list Z) (S D : Z)
  : result Z :=
  let! x0 := getitem x 0 in
  let! t := (10 ^ 18 * x0 * N_COINS) //? D in
  let! x1 := getitem x 1 in
  let! t := (t * x1 * N_COINS) //? D in
  let! x2 := getitem x 2 in
  let! K0 := (t * x2 * N_COINS) //? D in
  let _g1k0 := Z.abs (gamma + 10 ^ 18 - K0) + 1 in
  let! t := (10 ^ 18 * D) //? gamma in
  let! t := (t * _g1k0) //? gamma in
  let! mul1 := (t * _g1k0 * A_MULTIPLIER) //? ANN in
  let! mul2 := (2 * 10 ^ 18 * N_COINS * K0) //? _g1k0 in
  let! t := (mul1 * N_COINS) //? K0 in
  let neg_fprime := (S + S * mul2 / 10 ^ 18) + t - mul2 * D / 10 ^ 18 in
  let! D_plus := (D * (neg_fprime + S)) //? neg_fprime in
  let! D_minus := (D * D) //? neg_fprime in
  let! D_minus :=
    if 10 ^ 18 >? K0 then
      let! q := mul1 //? neg_fprime in
      let! r := (D * q / 10 ^ 18 * (10 ^ 18 - K0)) //? K0 in
      Ok (D_minus + r)
    else
      let! q := (D * mul1) //? neg_fprime in
      let! r := (q / 10 ^ 18 * (K0 - 10 ^ 18)) //? K0 in
      Ok (D_minus - r) in
  Ok (if D_plus >? D_minus then D_plus - D_minus
      else (D_minus - D_plus) / 2).

(** [for _x in x: frac = (_x * 10**18) // D;
    assert 10**16 <= frac <= 10**20, "Unsafe values x[i]"] *)
Fixpoint check_safe (D : Z) (x : list Z) : result unit :=
  match x with
  | [] => Ok tt
  | _x :: rest =>
      let! frac := (_x * 10 ^ 18) //? D in
      let! _ := assert ((10 ^ 16 <=? frac) && (frac <=? 10 ^ 20))
                  "Unsafe values x[i]" in
      check_safe D rest
  end.

Fixpoint newton_D_loop (fuel : nat) (ANN gamma N_COINS : Z) (x : list Z)
  (S D : Z) : result Z :=
  match fuel with
  | O => Raise (CalculationError "Did not converge")
  | Datatypes.S fuel' =>
      let! D' := newton_D_step ANN gamma N_COINS x S D in
      if newton_D_done D D' then
        let! _ := check_safe D' x in
        Ok D'
      else newton_D_loop fuel' ANN gamma N_COINS x S D'
  end.

Definition newton_D (ANN gamma : Z) (x_unsorted : list Z) (K0_prev : Z)
  : result Z :=
  let x := sorted_desc x_unsorted in
  let N_COINS := Z.of_nat (length x) in
  let! x0 := getitem x 0 in
  let! _ := assert (x0 <? (2 ^ 256 - 1) / 10 ^ 18 * N_COINS ^ N_COINS) "" in
  let! _ := assert (x0 >? 0) "" in
  let S := sum x in
  let! D := newton_D_guess N_COINS x S K0_prev in
  newton_D_loop 255 ANN gamma N_COINS x S D.

(** ** The [mainnet_3pool_state] fixture of [test/conftest.py] *)

Module Fixture.

Definition N_COINS : Z := 3.
Definition A : Z := 2000.
Definition p : list Z := [10 ^ 18; 10 ^ 30; 10 ^ 30].
Definition balances : list Z :=
  [295949605740077243186725223; 284320067518878; 288200854907854].

(** [[b * p // 10**18 for b, p in zip(balances, p)]] *)
Definition virtual_balances : list Z :=
  zip_with (fun b p => b * p / 10 ^ 18) balances p.

Definition lp_tokens : Z := 849743149250065202008212976.
Definition virtual_price : Z := 1022038799187029697.

End Fixture.

(** ** Parameter-sampler mixins ([pool_mixins.py]) *)

(** Modelled from the spec: the pool classes [SimCurvePool] and
    [SimCurveMetaPool] are not in the source tree.  A stableswap pool is
    the record of the attributes the setters read and write: the token
    count [n], the per-token [rates] and the [balances]; a meta-pool
    carries the same attributes and owns a nested [basepool]. *)
Record Pool : Type := mkPool {
  n : Z;
  rates : list Z;
  balances : list Z
}.

Record MetaPool : Type := mkMetaPool {
  meta_n : Z;
  meta_rates : list Z;
  meta_balances : list Z;
  basepool : Pool
}.

(** The comprehension [[D // n * 10**18 // r for r in rates]]. *)
Fixpoint D_to_balances (D n : Z) (rates : list Z) : result (list Z) :=
  match rates with
  | [] => Ok []
  | r :: rest =>
      let! q := D //? n in
      let! b := (q * 10 ^ 18) //? r in
      let! bs := D_to_balances D n rest in
      Ok (b :: bs)
  end.

(** [pool.balances = ...] on a stableswap pool. *)
Definition stableswap_D_to_balances (pool : Pool) (D : Z) : result Pool :=
  let rates := rates pool in
  let n := n pool in
  let! bs := D_to_balances D n rates in
  Ok {| n := n; rates := rates; balances := bs |}.

(** The same function applied to a meta-pool object, whose own [n],
    [rates] and [balances] attributes it reads and writes. *)
Definition stableswap_D_to_balances_meta (pool : MetaPool) (D : Z)
  : result MetaPool :=
  let rates := meta_rates pool in
  let n := meta_n pool in
  let! bs := D_to_balances D n rates in
  Ok {| meta_n := n; meta_rates := rates; meta_balances := bs;
        basepool := basepool pool |}.

(** [basepool = pool.basepool; basepool.balances = ...]: the nested
    base pool is updated in place, the meta-pool's own fields are kept. *)
Definition stableswap_D_base_to_balances (pool : MetaPool) (D_base : Z)
  : result MetaPool :=
  let basepool := basepool pool in
  let rates := rates basepool in
  let n := n basepool in
  let! bs := D_to_balances D_base n rates in
  Ok {| meta_n := meta_n pool; meta_rates := meta_rates pool;
        meta_balances := meta_balances pool;
        basepool := {| n := n; rates := rates; balances := bs |} |}.

(** The module-level setter functions, as the values stored in the
    [setters] dictionaries. *)
Inductive setter : Type :=
| Setter_stableswap_D_to_balances
| Setter_stableswap_D_base_to_balances
| Setter_cryptoswap_D_to_balances
| Setter_set_cryptoswap_A
| Setter_set_cryptoswap_gamma.

Inductive mixin : Type :=
| CurvePoolMixin
| CurveMetaPoolMixin
| CurveCryptoPoolMixin.

(** The [setters] property of each mixin. *)
Definition setters (m : mixin) : gmap string setter :=
  match m with
  | CurvePoolMixin =>
      {[ "D" := Setter_stableswap_D_to_balances ]}
  | CurveMetaPoolMixin =>
      <[ "D" := Setter_stableswap_D_to_balances ]>
        {[ "D_base" := Setter_stableswap_D_base_to_balances ]}
  | CurveCryptoPoolMixin =>
      <[ "D" := Setter_cryptoswap_D_to_balances ]>
        {[ "A" := Setter_set_cryptoswap_A ]}
  end.

(** ** The Newton iteration of [newton_D], for stating its outcomes *)

(** [D] after [k] passes of the loop body, the convergence test left
    aside. *)
Fixpoint newton_D_iterate (k : nat) (ANN gamma N_COINS : Z) (x : list Z)
  (S D : Z) : result Z :=
  match k with
  | O => Ok D
  | Datatypes.S k' =>
      let! D' := newton_D_step ANN gamma N_COINS x S D in
      newton_D_iterate k' ANN gamma N_COINS x S D'
  end.

(** Pass [k] (counted from 0) runs and does not meet the convergence
    test. *)
Definition newton_D_not_yet (ANN gamma N_COINS : Z) (x : list Z) (S D0 : Z)
  (k : nat) : Prop :=
  exists Dk Dk',
    newton_D_iterate k ANN gamma N_COINS x S D0 = Ok Dk /\
    newton_D_step ANN gamma N_COINS x S Dk = Ok Dk' /\
    newton_D_done Dk Dk' = false.

(** Pass [k] is the first to meet the convergence test, with new value
    [D]. *)
Definition newton_D_converges_at (ANN gamma N_COINS : Z) (x : list Z)
  (S D0 : Z) (k : nat) (D : Z) : Prop :=
  (forall j, (j < k)%nat -> newton_D_not_yet ANN gamma N_COINS x S D0 j) /\
  exists Dk,
    newton_D_iterate k ANN gamma N_COINS x S D0 = Ok Dk /\
    newton_D_step ANN gamma N_COINS x S Dk = Ok D /\
    newton_D_done Dk D = true.

(** The band [10**16 <= x_i * 10**18 // D <= 10**20]. *)
Definition in_band (D xi : Z) : Prop :=
  10 ^ 16 <= xi * 10 ^ 18 / D <= 10 ^ 20.

(** The bound asserted on the largest balance. *)
Definition largest_in_bounds (N_COINS x0 : Z) : Prop :=
  0 < x0 < (2 ^ 256 - 1) / 10 ^ 18 * N_COINS ^ N_COINS.

(** The documented safe ranges of [ANN] and [gamma] for [n] coins. *)
Definition ANN_in_range (n ANN : Z) : Prop :=
  n ^ n * A_MULTIPLIER / 10 <= ANN <= n ^ n * A_MULTIPLIER * 100000.

Definition gamma_in_range (gamma : Z) : Prop :=
  MIN_GAMMA <= gamma <= MAX_GAMMA.

(** The index of the first pass, among the first [fuel], to meet the
    convergence test, with the value it produces; [None] when a pass
    raises or none meets the test. *)
Fixpoint newton_D_first_pass (fuel : nat) (ANN gamma N_COINS : Z) (x : list Z)
  (S D : Z) : option (nat * Z) :=
  match fuel with
  | O => None
  | Datatypes.S fuel' =>
      match newton_D_step ANN gamma N_COINS x S D with
      | Raise _ => None
      | Ok D' =>
          if newton_D_done D D' then Some (O, D')
          else match newton_D_first_pass fuel' ANN gamma N_COINS x S D' with
               | Some (k, Dn) => Some (Datatypes.S k, Dn)
               | None => None
               end
      end
  end.

(** ** The reference scenario *)

(** The fixture's virtual balances in the order [newton_D] works on. *)
Definition reference_x : list Z :=
  [295949605740077243186725223;
   288200854907854000000000000;
   284320067518878000000000000].

Definition reference_S : Z := 868470528166809243186725223.

(** [D] is within the solver's convergence tolerance of [ref]: the test
    [diff * 10**14 < max(10**16, D)] with [diff = |D - ref|]. *)
Definition within_tolerance (D ref : Z) : Prop :=
  Z.abs (D - ref) * 10 ^ 14 < Z.max (10 ^ 16) D.

(** ** Vocabulary for the further properties *)

(** Every exception [m] can raise satisfies [P]. *)
Definition raises_only {A : Type} (P : exn -> Prop) (m : result A) : Prop :=
  forall e, m = Raise e -> P e.

(** The exceptions that can leave [geometric_mean]. *)
Definition geometric_mean_exn (e : exn) : Prop :=
  e = IndexError \/ e = ZeroDivisionError \/
  e = CalculationError "Did not converge".

(** The exceptions that can leave the later definition of [newton_D]. *)
Definition newton_D_exn (e : exn) : Prop :=
  e = AssertionError "" \/ e = AssertionError "Unsafe values x[i]" \/
  e = CalculationError "Did not converge" \/
  e = IndexError \/ e = ZeroDivisionError.

(** The pool value that balances [bs] represent under rates [rs], in
    [10**36] scale: the sum of [bs[i] * rs[i]]. *)
Definition weighted_sum (bs rs : list Z) : Z := sum (zip_with Z.mul bs rs).

(** ** The three phases of [_cbrt] *)

(** The scaled input [xx] of [_cbrt]. *)
Definition cbrt_scaled (x : Z) : Z :=
  if CBRT_BOUND * 10 ^ 18 <=? x then x
  else if CBRT_BOUND <=? x then x * 10 ^ 18
  else x * 10 * 36.

(** The initial guess [2**(log2x // 3) * 1260**r // 1000**r]. *)
Definition cbrt_guess (xx : Z) : Z :=
  let log2x := _snekmate_log_2 xx false in
  let remainder := log2x mod 3 in
  (2 ^ (log2x / 3) * 1260 ^ remainder) / 1000 ^ remainder.

(** The value of one unrolled line, when [a] is non-zero. *)
Definition cbrt_next (xx a : Z) : Z := (2 * a + xx / (a * a)) / 3.

(** The seven unrolled Newton lines from the guess. *)
Definition cbrt_run (xx : Z) : result Z :=
  let! a := cbrt_newton xx (cbrt_guess xx) in
  let! a := cbrt_newton xx a in
  let! a := cbrt_newton xx a in
  let! a := cbrt_newton xx a in
  let! a := cbrt_newton xx a in
  let! a := cbrt_newton xx a in
  cbrt_newton xx a.

(** The factor applied to the root on return. *)
Definition cbrt_unscale (x : Z) : Z :=
  if CBRT_BOUND * 10 ^ 18 <=? x then 10 ^ 12
  else if CBRT_BOUND <=? x then 10 ^ 6
  else 1.

(** * Properties *)

(** ** Error-monad inversion *)

Lemma bind_Ok_inv {A B : Type} (m : result A) (k : A -> result B) (b : B) :
  bind m k = Ok b -> exists a, m = Ok a /\ k a = Ok b.
Proof. destruct m as [a|e]; simpl; intros H; [eauto | discriminate]. Qed.

Lemma floordiv_Ok (a b : Z) : b <> 0 -> a //? b = Ok (a / b).
Proof. intros Hb. unfold floordiv. apply Z.eqb_neq in Hb. now rewrite Hb. Qed.

Lemma floordiv_Ok_inv (a b q : Z) : a //? b = Ok q -> b <> 0 /\ q = a / b.
Proof.
  unfold floordiv. destruct (b =? 0) eqn:E; [discriminate|].
  apply Z.eqb_neq in E. intros [= <-]. auto.
Qed.

(** ** [_snekmate_log_2] *)

Lemma log_2_stage_spec (k v r : Z) :
  0 < k -> 0 < v < 2 ^ (2 * k) ->
  0 < fst (log_2_stage k (v, r)) < 2 ^ k /\
  snd (log_2_stage k (v, r)) + Z.log2 (fst (log_2_stage k (v, r)))
    = r + Z.log2 v.
Proof.
  intros Hk [Hv0 Hv]. unfold log_2_stage.
  assert (Hpow : 0 < 2 ^ k) by (apply Z.pow_pos_nonneg; lia).
  assert (Hsq : 2 ^ (2 * k) = 2 ^ k * 2 ^ k).
  { replace (2 * k) with (k + k) by lia. apply Z.pow_add_r; lia. }
  destruct (Z.shiftr v k =? 0) eqn:E; simpl.
  - apply Z.eqb_eq in E. rewrite Z.shiftr_div_pow2 in E by lia.
    apply Z.div_small_iff in E; lia.
  - apply Z.eqb_neq in E.
    assert (Hge : 2 ^ k <= v).
    { rewrite Z.shiftr_div_pow2 in E by lia.
      destruct (Z_lt_le_dec v (2 ^ k)) as [Hlt|]; [|assumption].
      exfalso. apply E. apply Z.div_small. lia. }
    rewrite Z.log2_shiftr by lia.
    assert (Hlog : k <= Z.log2 v) by (apply Z.log2_le_pow2; lia).
    rewrite Z.shiftr_div_pow2 by lia.
    repeat split; try lia.
    + apply Z.div_str_pos. lia.
    + apply Z.div_lt_upper_bound; lia.
Qed.

Lemma snekmate_log_2_floor (x : Z) :
  0 < x < 2 ^ 256 -> _snekmate_log_2 x false = Z.log2 x.
Proof.
  intros Hx. unfold _snekmate_log_2.
  pose proof (log_2_stage_spec 128 x 0 ltac:(lia) Hx) as [B1 E1].
  destruct (log_2_stage 128 (x, 0)) as [v1 r1]. simpl in B1, E1.
  pose proof (log_2_stage_spec 64 v1 r1 ltac:(lia) B1) as [B2 E2].
  destruct (log_2_stage 64 (v1, r1)) as [v2 r2]. simpl in B2, E2.
  pose proof (log_2_stage_spec 32 v2 r2 ltac:(lia) B2) as [B3 E3].
  destruct (log_2_stage 32 (v2, r2)) as [v3 r3]. simpl in B3, E3.
  pose proof (log_2_stage_spec 16 v3 r3 ltac:(lia) B3) as [B4 E4].
  destruct (log_2_stage 16 (v3, r3)) as [v4 r4]. simpl in B4, E4.
  pose proof (log_2_stage_spec 8 v4 r4 ltac:(lia) B4) as [B5 E5].
  destruct (log_2_stage 8 (v4, r4)) as [v5 r5]. simpl in B5, E5.
  pose proof (log_2_stage_spec 4 v5 r5 ltac:(lia) B5) as [B6 E6].
  destruct (log_2_stage 4 (v5, r5)) as [v6 r6]. simpl in B6, E6.
  pose proof (log_2_stage_spec 2 v6 r6 ltac:(lia) B6) as [B7 E7].
  destruct (log_2_stage 2 (v6, r6)) as [v7 r7]. simpl in B7, E7.
  simpl andb. cbv iota.
  assert (Hv7 : v7 = 1 \/ v7 = 2 \/ v7 = 3) by (change (2 ^ 2) with 4 in B7; lia).
  destruct Hv7 as [-> | [-> | ->]]; simpl in *; lia.
Qed.

(** C5.  Integer log base 2 is exact on powers of two and defined at
    zero: [_snekmate_log_2(2**k, False) == k] for every [k] in [0, 255],
    and [_snekmate_log_2(0, roundup) == 0] for both rounding modes. *)
Theorem snekmate_log_2_pow2_and_zero (k : Z) (roundup : bool) :
  0 <= k <= 255 ->
  _snekmate_log_2 (2 ^ k) false = k /\ _snekmate_log_2 0 roundup = 0.
Proof.
  intros Hk. split.
  - rewrite snekmate_log_2_floor.
    + apply Z.log2_pow2. lia.
    + split; [apply Z.pow_pos_nonneg; lia | apply Z.pow_lt_mono_r; lia].
  - now destruct roundup.
Qed.

Lemma snekmate_log_2_pow2_and_zero_witness :
  _snekmate_log_2 (2 ^ 200) false = 200 /\ _snekmate_log_2 0 true = 0.
Proof. apply (snekmate_log_2_pow2_and_zero 200 true). lia. Defined.

(** ** [lp_price] *)

(** C10.  [lp_price] never succeeds: for every pair of arguments it
    raises [CalculationError] and returns no LP token price. *)
Theorem lp_price_always_raises (virtual_price : Z) (price_oracle : list Z) :
  (exists msg, lp_price virtual_price price_oracle
               = Raise (CalculationError msg)) /\
  is_ok (lp_price virtual_price price_oracle) = false.
Proof. split; [eexists|]; reflexivity. Qed.

(** ** The [setters] tables *)

Lemma setters_CurvePoolMixin (name : string) :
  is_Some (setters CurvePoolMixin !! name) <-> name = "D".
Proof.
  unfold setters. rewrite lookup_singleton_is_Some. split; congruence.
Qed.

Lemma setters_CurveMetaPoolMixin (name : string) :
  is_Some (setters CurveMetaPoolMixin !! name) <-> name = "D" \/ name = "D_base".
Proof.
  unfold setters. rewrite lookup_insert_is_Some', lookup_singleton_is_Some.
  intuition congruence.
Qed.

Lemma setters_CurveCryptoPoolMixin (name : string) :
  is_Some (setters CurveCryptoPoolMixin !! name) <-> name = "D" \/ name = "A".
Proof.
  unfold setters. rewrite lookup_insert_is_Some', lookup_singleton_is_Some.
  intuition congruence.
Qed.

(** C8.  The registered sweep-setter tables are exactly: stableswap
    pools register [D] only; meta-pools exactly [D] and [D_base];
    cryptoswap pools exactly [D] and [A]; no family registers a setter
    under [gamma] (nor is [set_cryptoswap_gamma] a value of any table), so
    any other axis name has no registered setter. *)
Theorem setters_tables_exact :
  (forall name, is_Some (setters CurvePoolMixin !! name) <-> name = "D") /\
  (forall name, is_Some (setters CurveMetaPoolMixin !! name)
                <-> name = "D" \/ name = "D_base") /\
  (forall name, is_Some (setters CurveCryptoPoolMixin !! name)
                <-> name = "D" \/ name = "A") /\
  (forall m, setters m !! "gamma" = None) /\
  (forall m name, setters m !! name <> Some Setter_set_cryptoswap_gamma) /\
  (forall m name, name <> "D" -> name <> "D_base" -> name <> "A" ->
                  setters m !! name = None).
Proof.
  split; [exact setters_CurvePoolMixin|].
  split; [exact setters_CurveMetaPoolMixin|].
  split; [exact setters_CurveCryptoPoolMixin|].
  split; [intros []; reflexivity|].
  split.
  - intros m name H.
    assert (Hs : is_Some (setters m !! name)) by (rewrite H; eauto).
    destruct m.
    + apply setters_CurvePoolMixin in Hs. subst. discriminate.
    + apply setters_CurveMetaPoolMixin in Hs. destruct Hs; subst; discriminate.
    + apply setters_CurveCryptoPoolMixin in Hs. destruct Hs; subst; discriminate.
  - intros m name HD HDb HA.
    apply eq_None_not_Some. intros Hs. destruct m.
    + apply setters_CurvePoolMixin in Hs. tauto.
    + apply setters_CurveMetaPoolMixin in Hs. tauto.
    + apply setters_CurveCryptoPoolMixin in Hs. tauto.
Qed.

Lemma setters_tables_exact_witness :
  setters CurveCryptoPoolMixin !! "mid_fee" = None.
Proof.
  apply (proj2 (proj2 (proj2 (proj2 (proj2 setters_tables_exact))))
           CurveCryptoPoolMixin "mid_fee"); discriminate.
Defined.

(** ** The stableswap balance setters *)

Lemma D_to_balances_Ok (D n : Z) (rates : list Z) :
  n <> 0 -> Forall (fun r => r <> 0) rates ->
  D_to_balances D n rates = Ok (map (fun r => D / n * 10 ^ 18 / r) rates).
Proof.
  intros Hn Hr. induction Hr as [|r rest Hr0 _ IH]; [reflexivity|].
  cbn [D_to_balances map].
  rewrite (floordiv_Ok D n Hn). cbn [bind].
  rewrite (floordiv_Ok _ r Hr0). cbn [bind].
  rewrite IH. reflexivity.
Qed.

(** C7.  Setting the invariant target distributes it across tokens via
    the rates: on a stableswap pool with token count [n] and rates [r]
    the [D] setter stores [D // n * 10**18 // r[i]] as [balances[i]] for
    every [i], and on a meta-pool the [D_base] setter stores the same
    formula, over the base pool's [n] and rates, in the nested base pool's
    balances.  Token counts and rates are non-zero, as they are for any
    pool. *)
Theorem D_setters_distribute_via_rates
  (pool : Pool) (mpool : MetaPool) (D D_base : Z) :
  n pool <> 0 -> Forall (fun r => r <> 0) (rates pool) ->
  n (basepool mpool) <> 0 ->
  Forall (fun r => r <> 0) (rates (basepool mpool)) ->
  (exists pool',
      stableswap_D_to_balances pool D = Ok pool' /\
      n pool' = n pool /\ rates pool' = rates pool /\
      length (balances pool') = length (rates pool) /\
      forall (i : nat) (r : Z),
        rates pool !! i = Some r ->
        balances pool' !! i = Some (D / n pool * 10 ^ 18 / r)) /\
  (exists mpool',
      stableswap_D_base_to_balances mpool D_base = Ok mpool' /\
      meta_balances mpool' = meta_balances mpool /\
      n (basepool mpool') = n (basepool mpool) /\
      rates (basepool mpool') = rates (basepool mpool) /\
      length (balances (basepool mpool')) = length (rates (basepool mpool)) /\
      forall (i : nat) (r : Z),
        rates (basepool mpool) !! i = Some r ->
        balances (basepool mpool') !! i
          = Some (D_base / n (basepool mpool) * 10 ^ 18 / r)).
Proof.
  intros Hn Hr Hbn Hbr. split.
  - unfold stableswap_D_to_balances.
    rewrite (D_to_balances_Ok D _ _ Hn Hr). cbn [bind].
    eexists. split; [reflexivity|]. cbn.
    repeat split; [apply length_map|].
    intros i r Hi. rewrite list_lookup_fmap, Hi. reflexivity.
  - unfold stableswap_D_base_to_balances.
    rewrite (D_to_balances_Ok D_base _ _ Hbn Hbr). cbn [bind].
    eexists. split; [reflexivity|]. cbn.
    repeat split; [apply length_map|].
    intros i r Hi. rewrite list_lookup_fmap, Hi. reflexivity.
Qed.

Lemma D_setters_distribute_via_rates_witness :
  exists pool',
    stableswap_D_to_balances
      {| n := 3; rates := [10 ^ 18; 10 ^ 30; 10 ^ 30]; balances := [] |}
      (3 * 10 ^ 24) = Ok pool' /\
    balances pool' = [10 ^ 24; 10 ^ 12; 10 ^ 12].
Proof.
  destruct (D_setters_distribute_via_rates
              {| n := 3; rates := [10 ^ 18; 10 ^ 30; 10 ^ 30]; balances := [] |}
              {| meta_n := 2; meta_rates := [10 ^ 18; 10 ^ 18];
                 meta_balances := [];
                 basepool := {| n := 2; rates := [10 ^ 18; 10 ^ 30];
                                balances := [] |} |}
              (3 * 10 ^ 24) (2 * 10 ^ 24))
    as [[pool' [Hrun _]] _].
  - cbn. lia.
  - cbn. repeat constructor; lia.
  - cbn. lia.
  - cbn. repeat constructor; lia.
  - exists pool'. split; [exact Hrun|].
    vm_compute in Hrun. injection Hrun as <-. reflexivity.
Defined.

(** ** [geometric_mean] and the order of its input *)

Lemma sorted_desc_Permutation (l1 l2 : list Z) :
  l1 ≡ₚ l2 -> sorted_desc l1 = sorted_desc l2.
Proof.
  intros Hp. unfold sorted_desc.
  apply (Sorted_unique Zdesc).
  - apply Sorted_merge_sort; typeclasses eauto.
  - apply Sorted_merge_sort; typeclasses eauto.
  - now rewrite !merge_sort_Permutation.
Qed.

(** Without sorting, the seed [x[0]] and the order of the truncating
    divisions both depend on the order of the input. *)
Example geometric_mean_unsorted_13 :
  geometric_mean [1 * 10 ^ 18; 3 * 10 ^ 18] false = Ok 1732050807568877292.
Proof. vm_compute. reflexivity. Qed.

Example geometric_mean_unsorted_31 :
  geometric_mean [3 * 10 ^ 18; 1 * 10 ^ 18] false = Ok 1732050807568877293.
Proof. vm_compute. reflexivity. Qed.

(** C3, as stated, fails for [sort = False]: the positive inputs
    [[10**18, 3 * 10**18]] and [[3 * 10**18, 10**18]] are permutations of
    each other and give different results. *)
Lemma geometric_mean_order_counterexample :
  [1 * 10 ^ 18; 3 * 10 ^ 18] ≡ₚ [3 * 10 ^ 18; 1 * 10 ^ 18] /\
  Forall (fun v => 0 < v) [1 * 10 ^ 18; 3 * 10 ^ 18] /\
  geometric_mean [1 * 10 ^ 18; 3 * 10 ^ 18] false
    <> geometric_mean [3 * 10 ^ 18; 1 * 10 ^ 18] false.
Proof.
  split; [apply Permutation_swap|].
  split; [repeat constructor|].
  vm_compute. discriminate.
Qed.

(** C3, amended.  With [sort = True], [geometric_mean] returns the same
    result (value or exception) on a list and on every permutation of
    it. *)
Theorem geometric_mean_sorted_permutation_invariant (x y : list Z) :
  x ≡ₚ y -> geometric_mean x true = geometric_mean y true.
Proof.
  intros Hp. unfold geometric_mean.
  rewrite (sorted_desc_Permutation x y Hp).
  rewrite (Permutation_length Hp). reflexivity.
Qed.

Lemma geometric_mean_sorted_permutation_invariant_witness :
  geometric_mean [1 * 10 ^ 18; 3 * 10 ^ 18] true
  = geometric_mean [3 * 10 ^ 18; 1 * 10 ^ 18] true.
Proof.
  apply (geometric_mean_sorted_permutation_invariant
           [1 * 10 ^ 18; 3 * 10 ^ 18] [3 * 10 ^ 18; 1 * 10 ^ 18]).
  apply Permutation_swap.
Defined.

(** ** [_cbrt] *)

(** The two upper branches scale the input and the output consistently:
    on a cube [a**3 * 10**18] in 10**18 fixed point they give
    [a * 10**18]. *)
Example cbrt_middle_branch : _cbrt ((10 ^ 8) ^ 3 * 10 ^ 18) = Ok (10 ^ 8 * 10 ^ 18).
Proof. vm_compute. reflexivity. Qed.

Example cbrt_upper_branch : _cbrt ((10 ^ 14) ^ 3 * 10 ^ 18) = Ok (10 ^ 14 * 10 ^ 18).
Proof. vm_compute. reflexivity. Qed.

(** C4.  The lowest branch multiplies by [10 * 36] where the sibling
    branches call for [10**36]: on the fixed-point cubes of 1 and 2, and on
    the plain cube of 1, the result is not within one unit of the root. *)
Theorem cbrt_lower_branch_off :
  _cbrt (1 ^ 3 * 10 ^ 18) = Ok 7113786 /\
  1 < Z.abs (7113786 - 1 * 10 ^ 18) /\
  _cbrt (2 ^ 3 * 10 ^ 18) = Ok 14227573 /\
  1 < Z.abs (14227573 - 2 * 10 ^ 18) /\
  _cbrt (1 ^ 3) = Ok 7 /\
  1 < Z.abs (7 - 1).
Proof. vm_compute. repeat split; reflexivity. Qed.

(** ** [get_p] *)

Lemma floordiv_cases (a b : Z) :
  (b <> 0 /\ a //? b = Ok (a / b)) \/ (b = 0 /\ a //? b = Raise ZeroDivisionError).
Proof.
  unfold floordiv. destruct (b =? 0) eqn:E.
  - right. apply Z.eqb_eq in E. auto.
  - left. apply Z.eqb_neq in E. auto.
Qed.

(** Each [a // b] in the goal either raises [ZeroDivisionError], which
    the enclosing binds propagate, or yields [a / b]. *)
Ltac floordiv_step :=
  match goal with
  | |- context [floordiv ?a ?b] =>
      let Hb := fresh "Hb" in
      let E := fresh "E" in
      destruct (floordiv_cases a b) as [[Hb E] | [Hb E]];
      rewrite E; cbn [bind]
  end.

Lemma get_p_assert (D : Z) :
  (D_in_get_p_range D /\
   assert ((10 ^ 17 <=? D) && (D <=? 10 ^ 15 * 10 ^ 18)) "" = Ok tt) \/
  (~ D_in_get_p_range D /\
   assert ((10 ^ 17 <=? D) && (D <=? 10 ^ 15 * 10 ^ 18)) ""
   = Raise (AssertionError "")).
Proof.
  unfold D_in_get_p_range, assert.
  destruct (10 ^ 17 <=? D) eqn:E1; destruct (D <=? 10 ^ 15 * 10 ^ 18) eqn:E2;
    cbn [andb];
    try apply Z.leb_le in E1; try apply Z.leb_le in E2;
    try apply Z.leb_gt in E1; try apply Z.leb_gt in E2;
    [left | right | right | right]; split; try reflexivity; lia.
Qed.

(** A balance list longer than three entries is accepted: the first
    three are priced, with [N] the full length. *)
Example get_p_four_assets :
  get_p [10 ^ 18; 10 ^ 18; 10 ^ 18; 10 ^ 18] (4 * 10 ^ 18) 2560000 (10 ^ 15)
  = Ok [10 ^ 18; 10 ^ 18].
Proof. vm_compute. reflexivity. Qed.

(** A three-asset list with an empty second balance divides by zero. *)
Example get_p_zero_balance :
  get_p [10 ^ 18; 0; 10 ^ 18] (3 * 10 ^ 18) 270000 (10 ^ 15)
  = Raise ZeroDivisionError.
Proof. vm_compute. reflexivity. Qed.

(** C6, as stated, fails: a four-asset balance list with [D] in the
    accepted range returns two price ratios. *)
Lemma get_p_length_counterexample :
  length [10 ^ 18; 10 ^ 18; 10 ^ 18; 10 ^ 18] <> 3%nat /\
  D_in_get_p_range (4 * 10 ^ 18) /\
  get_p [10 ^ 18; 10 ^ 18; 10 ^ 18; 10 ^ 18] (4 * 10 ^ 18) 2560000 (10 ^ 15)
  = Ok [10 ^ 18; 10 ^ 18].
Proof.
  split; [cbn; lia|]. split; [unfold D_in_get_p_range; lia|].
  vm_compute. reflexivity.
Qed.

(** C6, amended.  [get_p] checks the range of [D] and reads [xp[0]],
    [xp[1]], [xp[2]]; it never checks the length of [xp].  Hence: with
    [D] outside [10**17, 10**33] it raises [AssertionError]; with [D] in
    range and fewer than three balances it raises [IndexError]; with [D]
    in range and at least three balances it either raises
    [ZeroDivisionError] or returns exactly two values; and on exactly
    three balances with [xp[1]], [xp[2]] and the denominator non-zero it
    returns the two ratios [dx/dy], [dx/dz] given by the source's formula
    in 10**18 scale. *)
Theorem get_p_outcomes (xp : list Z) (D A gamma : Z) :
  (~ D_in_get_p_range D -> get_p xp D A gamma = Raise (AssertionError "")) /\
  (D_in_get_p_range D -> (length xp < 3)%nat ->
   get_p xp D A gamma = Raise IndexError) /\
  (D_in_get_p_range D -> (3 <= length xp)%nat ->
   get_p xp D A gamma = Raise ZeroDivisionError \/
   exists p_xy p_xz, get_p xp D A gamma = Ok [p_xy; p_xz]) /\
  (forall x y z,
      xp = [x; y; z] -> D_in_get_p_range D ->
      let K0 := get_p_K0 3 x y z D in
      let GK0 := get_p_GK0 K0 gamma in
      let NNAG2 := get_p_NNAG2 A gamma in
      let denominator := get_p_term K0 GK0 NNAG2 x D in
      y <> 0 -> z <> 0 -> denominator <> 0 ->
      get_p xp D A gamma
      = Ok [x * get_p_term K0 GK0 NNAG2 y D / y * 10 ^ 18 / denominator;
            x * get_p_term K0 GK0 NNAG2 z D / z * 10 ^ 18 / denominator]).
Proof.
  unfold get_p.
  destruct (get_p_assert D) as [[HD Ha] | [HD Ha]]; rewrite Ha; cbn [bind].
  2:{ repeat split; intros; try reflexivity; contradiction. }
  assert (HD0 : D <> 0) by (unfold D_in_get_p_range in HD; lia).
  split; [intros; contradiction|].
  split; [|split].
  - intros _ Hlen.
    destruct xp as [|x0 [|x1 [|x2 rest]]]; cbn in Hlen; try lia;
      cbn [getitem lookup list_lookup bind]; try reflexivity.
    rewrite (floordiv_Ok _ D HD0). reflexivity.
  - intros _ Hlen.
    destruct xp as [|x0 [|x1 [|x2 rest]]]; cbn in Hlen; try lia.
    cbn [getitem lookup list_lookup bind].
    repeat (floordiv_step; [|left; reflexivity]).
    right. eauto.
  - intros x y z -> _ Hy Hz Hden.
    unfold get_p_term, get_p_GK0, get_p_K0, get_p_NNAG2 in *.
    cbn [getitem lookup list_lookup bind length].
    change (Z.of_nat 3) with 3.
    repeat (first [ rewrite (floordiv_Ok _ D HD0)
                  | rewrite (floordiv_Ok _ y Hy)
                  | rewrite (floordiv_Ok _ z Hz)
                  | rewrite (floordiv_Ok _ _ Hden) ];
            cbn [bind]).
    reflexivity.
Qed.

Lemma get_p_outcomes_witness :
  get_p [10 ^ 18; 10 ^ 18; 10 ^ 18] (3 * 10 ^ 18) 270000 (10 ^ 15)
  = Ok [10 ^ 18; 10 ^ 18] /\
  get_p [10 ^ 18; 10 ^ 18] (3 * 10 ^ 18) 270000 (10 ^ 15) = Raise IndexError.
Proof.
  split.
  - rewrite (proj2 (proj2 (proj2 (get_p_outcomes
               [10 ^ 18; 10 ^ 18; 10 ^ 18] (3 * 10 ^ 18) 270000 (10 ^ 15))))
               (10 ^ 18) (10 ^ 18) (10 ^ 18)).
    + vm_compute. reflexivity.
    + reflexivity.
    + unfold D_in_get_p_range. lia.
    + lia.
    + lia.
    + vm_compute. discriminate.
  - apply (proj1 (proj2 (get_p_outcomes
             [10 ^ 18; 10 ^ 18] (3 * 10 ^ 18) 270000 (10 ^ 15)))).
    + unfold D_in_get_p_range. lia.
    + cbn. lia.
Defined.

(** ** The loop of [newton_D] *)

Lemma is_ok_bind_false {A B : Type} (m : result A) (k : A -> result B) :
  (forall a, m = Ok a -> is_ok (k a) = false) -> is_ok (bind m k) = false.
Proof. destruct m as [a|e]; simpl; auto. Qed.

Lemma getitem_short (x : list Z) (i : nat) :
  (length x <= i)%nat -> getitem x i = Raise IndexError.
Proof.
  intros H. unfold getitem. now rewrite (lookup_ge_None_2 x i H).
Qed.

Lemma sorted_desc_length (x : list Z) : length (sorted_desc x) = length x.
Proof. apply Permutation_length, merge_sort_Permutation. Qed.

(** With fewer than three balances the loop body never completes: it
    stops at [x[2]] at the latest. *)
Lemma newton_D_step_short (ANN gamma N_COINS : Z) (x : list Z) (S D : Z) :
  (length x < 3)%nat ->
  newton_D_step ANN gamma N_COINS x S D = Raise IndexError \/
  newton_D_step ANN gamma N_COINS x S D = Raise ZeroDivisionError.
Proof.
  intros Hlen. unfold newton_D_step.
  destruct (getitem x 0) as [x0|e] eqn:E0; cbn [bind].
  2:{ rewrite getitem_short in E0 by (destruct x; cbn in *; [lia | discriminate]).
      left. congruence. }
  floordiv_step; [|now right].
  destruct (getitem x 1) as [x1|e] eqn:E1; cbn [bind].
  2:{ destruct x as [|? [|? ?]]; try discriminate;
      cbn in E1; injection E1 as <-; now left. }
  floordiv_step; [|now right].
  rewrite (getitem_short x 2) by lia. now left.
Qed.

Lemma newton_D_loop_short (fuel : nat) (ANN gamma N_COINS : Z) (x : list Z)
  (S D : Z) :
  (length x < 3)%nat ->
  is_ok (newton_D_loop fuel ANN gamma N_COINS x S D) = false.
Proof.
  intros Hlen. destruct fuel as [|fuel]; [reflexivity|].
  cbn [newton_D_loop].
  destruct (newton_D_step_short ANN gamma N_COINS x S D Hlen) as [-> | ->];
    reflexivity.
Qed.

Lemma newton_D_guess_short (N_COINS : Z) (x : list Z) (S K0_prev : Z) :
  (length x < 3)%nat -> K0_prev <> 0 ->
  is_ok (newton_D_guess N_COINS x S K0_prev) = false.
Proof.
  intros Hlen HK. unfold newton_D_guess.
  apply Z.eqb_neq in HK. rewrite HK.
  destruct (getitem x 0); cbn [bind]; [|reflexivity].
  destruct (getitem x 1); cbn [bind]; [|reflexivity].
  now rewrite (getitem_short x 2) by lia.
Qed.

Lemma newton_D_short (ANN gamma : Z) (x_unsorted : list Z) (K0_prev : Z) :
  (length x_unsorted < 3)%nat ->
  is_ok (newton_D ANN gamma x_unsorted K0_prev) = false.
Proof.
  intros Hlen. unfold newton_D.
  rewrite sorted_desc_length.
  assert (Hs : (length (sorted_desc x_unsorted) < 3)%nat)
    by (now rewrite sorted_desc_length).
  do 4 (apply is_ok_bind_false; intros ? _).
  apply newton_D_loop_short, Hs.
Qed.

(** The earlier definition validates [ANN] and [gamma] before anything
    else. *)
Lemma Shadowed_newton_D_unsafe_A (ANN gamma : Z) (x_unsorted : list Z) :
  ~ ANN_in_range (Z.of_nat (length x_unsorted)) ANN ->
  Shadowed.newton_D ANN gamma x_unsorted
  = Raise (CurvesimValueError "Unsafe value for A").
Proof.
  unfold ANN_in_range, Shadowed.newton_D. intros H.
  set (n := Z.of_nat (length x_unsorted)) in *.
  destruct (n ^ n * A_MULTIPLIER / 10 <=? ANN) eqn:E1;
    destruct (ANN <=? n ^ n * A_MULTIPLIER * 100000) eqn:E2;
    cbn [andb negb]; try reflexivity.
  apply Z.leb_le in E1, E2. lia.
Qed.

Lemma Shadowed_newton_D_unsafe_gamma (ANN gamma : Z) (x_unsorted : list Z) :
  ANN_in_range (Z.of_nat (length x_unsorted)) ANN ->
  ~ gamma_in_range gamma ->
  Shadowed.newton_D ANN gamma x_unsorted
  = Raise (CurvesimValueError "Unsafe value for gamma").
Proof.
  unfold ANN_in_range, gamma_in_range, Shadowed.newton_D. intros [H1 H2] H.
  set (n := Z.of_nat (length x_unsorted)) in *.
  apply Z.leb_le in H1, H2. rewrite H1, H2. cbn [andb negb].
  destruct (MIN_GAMMA <=? gamma) eqn:E1; destruct (gamma <=? MAX_GAMMA) eqn:E2;
    cbn [andb negb]; try reflexivity.
  apply Z.leb_le in E1, E2. lia.
Qed.

(** C2.  The definition bound to [newton_D] reads [x[2]] in every pass
    and in every seeded guess, so on a two-asset pool it never returns:
    for the two-coin pool parameters of [PolygonSimulation.py] it raises
    [IndexError], where the shadowed earlier definition, which has a
    two-coin branch, returns the invariant. *)
Theorem newton_D_two_assets_never_returns :
  (forall ANN gamma a b K0_prev,
      is_ok (newton_D ANN gamma [a; b] K0_prev) = false) /\
  ANN_in_range 2 4000000 /\ gamma_in_range 25000000000000 /\
  newton_D 4000000 25000000000000 [10 ^ 21; 10 ^ 21] 0 = Raise IndexError /\
  Shadowed.newton_D 4000000 25000000000000 [10 ^ 21; 10 ^ 21]
  = Ok (2 * 10 ^ 21).
Proof.
  split; [intros; apply newton_D_short; cbn; lia|].
  split; [unfold ANN_in_range; vm_compute; split; discriminate|].
  split; [unfold gamma_in_range; vm_compute; split; discriminate|].
  split; vm_compute; reflexivity.
Qed.

Lemma newton_D_iterate_succ (k : nat) (ANN gamma N_COINS : Z) (x : list Z)
  (S D0 D1 : Z) :
  newton_D_step ANN gamma N_COINS x S D0 = Ok D1 ->
  newton_D_iterate (Datatypes.S k) ANN gamma N_COINS x S D0
  = newton_D_iterate k ANN gamma N_COINS x S D1.
Proof. intros H. cbn [newton_D_iterate]. now rewrite H. Qed.

Lemma newton_D_not_yet_0 (ANN gamma N_COINS : Z) (x : list Z) (S D0 : Z) :
  newton_D_not_yet ANN gamma N_COINS x S D0 0 ->
  exists D1, newton_D_step ANN gamma N_COINS x S D0 = Ok D1 /\
             newton_D_done D0 D1 = false.
Proof. intros (Dk & Dk' & [= <-] & Hs & Hd). eauto. Qed.

Lemma newton_D_not_yet_shift (ANN gamma N_COINS : Z) (x : list Z)
  (S D0 D1 : Z) (k : nat) :
  newton_D_step ANN gamma N_COINS x S D0 = Ok D1 ->
  newton_D_not_yet ANN gamma N_COINS x S D0 (Datatypes.S k) ->
  newton_D_not_yet ANN gamma N_COINS x S D1 k.
Proof.
  intros H1 (Dk & Dk' & Hi & Hs & Hd).
  rewrite (newton_D_iterate_succ _ _ _ _ _ _ _ _ H1) in Hi.
  exists Dk, Dk'. auto.
Qed.

(** No pass among the first [fuel] meets the test: the loop runs out. *)
Lemma newton_D_loop_exhausted (fuel : nat) (ANN gamma N_COINS : Z)
  (x : list Z) (S D0 : Z) :
  (forall k, (k < fuel)%nat -> newton_D_not_yet ANN gamma N_COINS x S D0 k) ->
  newton_D_loop fuel ANN gamma N_COINS x S D0
  = Raise (CalculationError "Did not converge").
Proof.
  revert D0. induction fuel as [|fuel IH]; intros D0 H; [reflexivity|].
  destruct (newton_D_not_yet_0 _ _ _ _ _ _ (H 0%nat ltac:(lia)))
    as (D1 & Hs & Hd).
  cbn [newton_D_loop]. rewrite Hs. cbn [bind]. rewrite Hd.
  apply IH. intros k Hk.
  apply (newton_D_not_yet_shift _ _ _ _ _ D0); [assumption|].
  apply H. lia.
Qed.

(** Pass [k < fuel] is the first to meet the test: the loop ends there
    with the safety check on the new [D]. *)
Lemma newton_D_loop_converged (k fuel : nat) (ANN gamma N_COINS : Z)
  (x : list Z) (S D0 D : Z) :
  (k < fuel)%nat ->
  newton_D_converges_at ANN gamma N_COINS x S D0 k D ->
  newton_D_loop fuel ANN gamma N_COINS x S D0
  = (let! _ := check_safe D x in Ok D).
Proof.
  revert fuel D0. induction k as [|k IH]; intros fuel D0 Hk [Hny Hc].
  - destruct Hc as (Dk & [= <-] & Hs & Hd).
    destruct fuel as [|fuel]; [lia|].
    cbn [newton_D_loop]. rewrite Hs. cbn [bind]. now rewrite Hd.
  - destruct fuel as [|fuel]; [lia|].
    destruct (newton_D_not_yet_0 _ _ _ _ _ _ (Hny 0%nat ltac:(lia)))
      as (D1 & Hs & Hd).
    cbn [newton_D_loop]. rewrite Hs. cbn [bind]. rewrite Hd.
    apply IH; [lia|]. split.
    + intros j Hj.
      apply (newton_D_not_yet_shift _ _ _ _ _ D0); [assumption|].
      apply Hny. lia.
    + destruct Hc as (Dk & Hi & Hs' & Hd').
      rewrite (newton_D_iterate_succ _ _ _ _ _ _ _ _ Hs) in Hi.
      exists Dk. auto.
Qed.

(** Whatever the loop returns is the result of a pass that met the
    convergence test. *)
Lemma newton_D_loop_Ok_inv (fuel : nat) (ANN gamma N_COINS : Z)
  (x : list Z) (S D0 D : Z) :
  newton_D_loop fuel ANN gamma N_COINS x S D0 = Ok D ->
  exists D_prev,
    newton_D_step ANN gamma N_COINS x S D_prev = Ok D /\
    newton_D_done D_prev D = true /\
    check_safe D x = Ok tt.
Proof.
  revert D0. induction fuel as [|fuel IH]; intros D0 H; [discriminate|].
  cbn [newton_D_loop] in H.
  apply bind_Ok_inv in H as (D1 & Hs & H).
  destruct (newton_D_done D0 D1) eqn:Hd.
  - apply bind_Ok_inv in H as ([] & Hc & [= <-]). eauto.
  - eauto.
Qed.

Lemma check_safe_Ok (D : Z) (x : list Z) :
  D <> 0 -> Forall (in_band D) x -> check_safe D x = Ok tt.
Proof.
  intros HD Hx. induction Hx as [|xi rest Hb _ IH]; [reflexivity|].
  cbn [check_safe]. rewrite (floordiv_Ok _ D HD). cbn [bind].
  unfold in_band in Hb. destruct Hb as [Hlo Hhi].
  apply Z.leb_le in Hlo, Hhi. rewrite Hlo, Hhi. cbn [andb assert bind].
  exact IH.
Qed.

Lemma check_safe_unsafe (D : Z) (x : list Z) :
  D <> 0 -> Exists (fun xi => ~ in_band D xi) x ->
  check_safe D x = Raise (AssertionError "Unsafe values x[i]").
Proof.
  intros HD Hx. induction x as [|xi rest IH]; [inversion Hx|].
  cbn [check_safe]. rewrite (floordiv_Ok _ D HD). cbn [bind].
  destruct ((10 ^ 16 <=? xi * 10 ^ 18 / D) && (xi * 10 ^ 18 / D <=? 10 ^ 20))
    eqn:E; cbn [assert bind]; [|reflexivity].
  apply andb_prop in E as [Hlo Hhi]. apply Z.leb_le in Hlo, Hhi.
  apply IH. inversion Hx as [? ? Hbad | ? ? Hrest]; subst; [|assumption].
  exfalso. apply Hbad. unfold in_band. lia.
Qed.

Lemma check_safe_Ok_inv (D : Z) (x : list Z) :
  check_safe D x = Ok tt -> Forall (in_band D) x.
Proof.
  induction x as [|xi rest IH]; intros H; [constructor|].
  cbn [check_safe] in H.
  apply bind_Ok_inv in H as (frac & Hf & H).
  apply floordiv_Ok_inv in Hf as [HD ->].
  apply bind_Ok_inv in H as ([] & Ha & H).
  unfold assert in Ha.
  destruct ((10 ^ 16 <=? xi * 10 ^ 18 / D) && (xi * 10 ^ 18 / D <=? 10 ^ 20))
    eqn:E; [|discriminate].
  apply andb_prop in E as [Hlo Hhi]. apply Z.leb_le in Hlo, Hhi.
  constructor; [unfold in_band; lia | auto].
Qed.

(** The two bare asserts on the largest balance. *)
Lemma newton_D_asserts (N_COINS x0 : Z) :
  (largest_in_bounds N_COINS x0 /\
   (let! _ := assert (x0 <? (2 ^ 256 - 1) / 10 ^ 18 * N_COINS ^ N_COINS) "" in
    assert (x0 >? 0) "") = Ok tt) \/
  (~ largest_in_bounds N_COINS x0 /\
   (let! _ := assert (x0 <? (2 ^ 256 - 1) / 10 ^ 18 * N_COINS ^ N_COINS) "" in
    assert (x0 >? 0) "") = Raise (AssertionError "")).
Proof.
  unfold largest_in_bounds, assert.
  destruct (x0 <? (2 ^ 256 - 1) / 10 ^ 18 * N_COINS ^ N_COINS) eqn:E1;
    cbn [bind].
  - apply Z.ltb_lt in E1. destruct (x0 >? 0) eqn:E2.
    + left. split; [|reflexivity]. apply Z.gtb_lt in E2. lia.
    + right. split; [|reflexivity]. rewrite Z.gtb_ltb in E2.
      apply Z.ltb_ge in E2. lia.
  - right. split; [|reflexivity]. apply Z.ltb_ge in E1. lia.
Qed.

Lemma newton_D_unfold (ANN gamma : Z) (x_unsorted : list Z) (K0_prev x0 : Z) :
  getitem (sorted_desc x_unsorted) 0 = Ok x0 ->
  newton_D ANN gamma x_unsorted K0_prev
  = (let x := sorted_desc x_unsorted in
     let N_COINS := Z.of_nat (length x) in
     let! _ := (let! _ := assert (x0 <? (2 ^ 256 - 1) / 10 ^ 18
                                         * N_COINS ^ N_COINS) "" in
                assert (x0 >? 0) "") in
     let! D := newton_D_guess N_COINS x (sum x) K0_prev in
     newton_D_loop 255 ANN gamma N_COINS x (sum x) D).
Proof.
  intros H0. unfold newton_D. rewrite H0. cbn [bind].
  destruct (assert (x0 <? _) ""); cbn [bind]; reflexivity.
Qed.

(** Whatever [newton_D] returns was produced by a pass that met the
    convergence test and leaves every balance inside the band. *)
Lemma newton_D_Ok_inv (ANN gamma : Z) (x_unsorted : list Z) (K0_prev D : Z) :
  newton_D ANN gamma x_unsorted K0_prev = Ok D ->
  let x := sorted_desc x_unsorted in
  exists D_prev,
    newton_D_step ANN gamma (Z.of_nat (length x)) x (sum x) D_prev = Ok D /\
    newton_D_done D_prev D = true /\
    Forall (in_band D) x.
Proof.
  intros H x. unfold newton_D in H. fold x in H.
  do 4 (apply bind_Ok_inv in H as (? & _ & H)).
  apply newton_D_loop_Ok_inv in H as (d & Hstep & Hdone & Hsafe).
  exists d. auto using check_safe_Ok_inv.
Qed.

(** A computed first pass is a convergence in the sense above. *)
Lemma newton_D_first_pass_converges (fuel : nat) (ANN gamma N_COINS : Z)
  (x : list Z) (S D0 : Z) (k : nat) (D : Z) :
  newton_D_first_pass fuel ANN gamma N_COINS x S D0 = Some (k, D) ->
  newton_D_converges_at ANN gamma N_COINS x S D0 k D.
Proof.
  revert D0 k. induction fuel as [|fuel IH]; intros D0 k H; [discriminate|].
  cbn [newton_D_first_pass] in H.
  destruct (newton_D_step ANN gamma N_COINS x S D0) as [D1|e] eqn:Hs;
    [|discriminate].
  destruct (newton_D_done D0 D1) eqn:Hd.
  - injection H as <- <-. split; [intros j Hj; lia|].
    exists D0. auto.
  - destruct (newton_D_first_pass fuel ANN gamma N_COINS x S D1)
      as [[k' Dn]|] eqn:Hf; [|discriminate].
    injection H as <- <-.
    destruct (IH D1 k' Hf) as [Hny (Dk & Hi & Hs' & Hd')]. split.
    + intros [|j] Hj.
      * exists D0, D1. auto.
      * destruct (Hny j ltac:(lia)) as (Dj & Dj' & Hij & Hsj & Hdj).
        exists Dj, Dj'. rewrite (newton_D_iterate_succ _ _ _ _ _ _ _ _ Hs).
        auto.
    + exists Dk. rewrite (newton_D_iterate_succ _ _ _ _ _ _ _ _ Hs). auto.
Qed.

(** C1.  The error taxonomy the definition bound to [newton_D] misses,
    at three inputs, beside what the shadowed earlier definition does on
    the same call.  With [ANN = 1], below the lower bound
    [27 * 10000 // 10] for three coins, the bound definition returns an
    invariant where the earlier one raises
    [CurvesimValueError("Unsafe value for A")]; with [gamma = 1], below
    [10**10], it returns an invariant where the earlier one raises
    [CurvesimValueError("Unsafe value for gamma")]; and with a smallest
    balance at [10**6 / 10**18] of the largest, below the ratio
    [10**11 / 10**18], its only error is the one of the post-solve band
    check, where the earlier one stops at its ratio assert before
    iterating. *)
Theorem newton_D_parameter_checks_shadowed :
  (~ ANN_in_range 3 1 /\ gamma_in_range (10 ^ 15) /\
   newton_D 1 (10 ^ 15) [10 ^ 18; 10 ^ 18; 10 ^ 18] 0 = Ok (3 * 10 ^ 18) /\
   Shadowed.newton_D 1 (10 ^ 15) [10 ^ 18; 10 ^ 18; 10 ^ 18]
   = Raise (CurvesimValueError "Unsafe value for A")) /\
  (ANN_in_range 3 270000 /\ ~ gamma_in_range 1 /\
   newton_D 270000 1 [10 ^ 18; 2 * 10 ^ 18; 3 * 10 ^ 18] 0
   = Ok 5451361778496418975 /\
   Shadowed.newton_D 270000 1 [10 ^ 18; 2 * 10 ^ 18; 3 * 10 ^ 18]
   = Raise (CurvesimValueError "Unsafe value for gamma")) /\
  (ANN_in_range 3 270000 /\ gamma_in_range (10 ^ 15) /\
   10 ^ 6 * 10 ^ 18 / 10 ^ 18 < 10 ^ 11 /\
   newton_D 270000 (10 ^ 15) [10 ^ 18; 10 ^ 18; 10 ^ 6] 0
   = Raise (AssertionError "Unsafe values x[i]") /\
   Shadowed.newton_D 270000 (10 ^ 15) [10 ^ 18; 10 ^ 18; 10 ^ 6]
   = Raise (AssertionError "")).
Proof.
  split; [|split].
  - split; [unfold ANN_in_range; vm_compute; intros [H _]; now apply H|].
    split; [unfold gamma_in_range; vm_compute; split; discriminate|].
    split; vm_compute; reflexivity.
  - split; [unfold ANN_in_range; vm_compute; split; discriminate|].
    split; [unfold gamma_in_range; vm_compute; intros [H _]; now apply H|].
    split; vm_compute; reflexivity.
  - split; [unfold ANN_in_range; vm_compute; split; discriminate|].
    split; [unfold gamma_in_range; vm_compute; split; discriminate|].
    split; [vm_compute; reflexivity|].
    split; vm_compute; reflexivity.
Qed.

(** X20.  For the definition bound to [newton_D], with [x] the
    balances sorted in descending order and [x0] the largest:
    it raises [AssertionError] when [x0] is not strictly between 0 and
    [(2**256 - 1) // 10**18 * n**n]; once the initial guess [D0] is
    computed, it raises [CalculationError("Did not converge")] when 255
    Newton passes run without meeting the convergence test; when pass
    [k < 255] is the first to meet it, with a non-zero new value [D], it
    raises [AssertionError("Unsafe values x[i]")] if some balance has
    [x_i * 10**18 // D] outside [10**16, 10**20] and returns [D] if all
    balances are inside. *)
Theorem newton_D_outcomes
  (ANN gamma : Z) (x_unsorted : list Z) (K0_prev x0 D0 : Z) :
  let x := sorted_desc x_unsorted in
  let N_COINS := Z.of_nat (length x) in
  let S := sum x in
  getitem x 0 = Ok x0 ->
  (~ largest_in_bounds N_COINS x0 ->
   newton_D ANN gamma x_unsorted K0_prev = Raise (AssertionError "")) /\
  (largest_in_bounds N_COINS x0 ->
   newton_D_guess N_COINS x S K0_prev = Ok D0 ->
   ((forall k, (k < 255)%nat ->
               newton_D_not_yet ANN gamma N_COINS x S D0 k) ->
    newton_D ANN gamma x_unsorted K0_prev
    = Raise (CalculationError "Did not converge")) /\
   (forall k D,
       (k < 255)%nat ->
       newton_D_converges_at ANN gamma N_COINS x S D0 k D ->
       D <> 0 ->
       (Exists (fun xi => ~ in_band D xi) x ->
        newton_D ANN gamma x_unsorted K0_prev
        = Raise (AssertionError "Unsafe values x[i]")) /\
       (Forall (in_band D) x ->
        newton_D ANN gamma x_unsorted K0_prev = Ok D))).
Proof.
  intros x N_COINS S Hx0.
  rewrite (newton_D_unfold _ _ _ _ _ Hx0). cbv zeta. fold x N_COINS S.
  destruct (newton_D_asserts N_COINS x0) as [[Hb Ha] | [Hb Ha]];
    rewrite Ha; cbn [bind].
  2:{ split; [reflexivity | intros; contradiction]. }
  split; [intros; contradiction|].
  intros _ Hg. rewrite Hg. cbn [bind]. split.
  - apply newton_D_loop_exhausted.
  - intros k D Hk Hc HD.
    rewrite (newton_D_loop_converged k 255 _ _ _ _ _ _ D Hk Hc).
    split; intros Hx.
    + now rewrite (check_safe_unsafe D x HD Hx).
    + now rewrite (check_safe_Ok D x HD Hx).
Qed.

Lemma newton_D_outcomes_witness :
  newton_D 270000 (10 ^ 15) [10 ^ 18; 2 * 10 ^ 18; 3 * 10 ^ 18] 0
  = Ok 5475211707952497546.
Proof.
  refine (proj2 (proj2 (proj2 (newton_D_outcomes
            270000 (10 ^ 15) [10 ^ 18; 2 * 10 ^ 18; 3 * 10 ^ 18] 0
            (3 * 10 ^ 18) 5451361778496418974 _) _ _)
          11%nat 5475211707952497546 _ _ _) _).
  - vm_compute. reflexivity.
  - unfold largest_in_bounds. vm_compute. split; reflexivity.
  - vm_compute. reflexivity.
  - lia.
  - apply (newton_D_first_pass_converges 255). vm_compute. reflexivity.
  - lia.
  - change (sorted_desc [10 ^ 18; 2 * 10 ^ 18; 3 * 10 ^ 18])
      with [3 * 10 ^ 18; 2 * 10 ^ 18; 1 * 10 ^ 18].
    unfold in_band. repeat constructor; vm_compute; discriminate.
Defined.

(** The post-solve band check is an [assert]: a pool whose smallest
    balance is too far from the solution raises [AssertionError], the same
    exception class as the bound check on the largest balance. *)
Example newton_D_unsafe_state :
  newton_D 270000 (10 ^ 15) [10 ^ 23; 10 ^ 18; 10 ^ 18] 0
  = Raise (AssertionError "Unsafe values x[i]").
Proof. vm_compute. reflexivity. Qed.

(** Neither [gamma] nor the ratio of a balance to the largest one is
    checked before the iteration. *)
Example newton_D_unchecked_gamma :
  ~ gamma_in_range 1 /\
  newton_D 270000 1 [10 ^ 18; 2 * 10 ^ 18; 3 * 10 ^ 18] 0
  = Ok 5451361778496418975.
Proof.
  split; [unfold gamma_in_range; vm_compute; intros [H _]; now apply H|].
  vm_compute. reflexivity.
Qed.

(** A call inside every documented range can still end in
    [ZeroDivisionError]: here through the seeded guess. *)
Example newton_D_seeded_zero_division :
  ANN_in_range 3 270000 /\ gamma_in_range (10 ^ 15) /\
  newton_D 270000 (10 ^ 15) [10 ^ 18; 2 * 10 ^ 18; 3 * 10 ^ 18] (10 ^ 18)
  = Raise ZeroDivisionError.
Proof.
  split; [unfold ANN_in_range; vm_compute; split; discriminate|].
  split; [unfold gamma_in_range; vm_compute; split; discriminate|].
  vm_compute. reflexivity.
Qed.

(** ** The reference scenario *)

Lemma reference_x_sorted : sorted_desc Fixture.virtual_balances = reference_x.
Proof. vm_compute. reflexivity. Qed.

Lemma reference_S_sum : sum reference_x = reference_S.
Proof. vm_compute. reflexivity. Qed.

Lemma div_sub_le (a b n : Z) : 0 < n -> (a - b) / n <= a / n - b / n.
Proof.
  intros Hn.
  assert (Hb : n * (b / n) <= b) by (apply Z.mul_div_le; lia).
  replace (a / n - b / n) with ((a - n * (b / n)) / n).
  - apply Z.div_le_mono; lia.
  - replace (a - n * (b / n)) with (a + (- (b / n)) * n) by lia.
    rewrite Z.div_add by lia. lia.
Qed.

(** The arithmetic of one pass near the fixture's [lp_tokens] figure:
    with [K0] above [10**18 + gamma] the pass raises [D] by at least
    [10**13], whatever the non-negative [mul1]. *)
Lemma reference_pass_gain (d K0 mul1 mul2 : Z) :
  Fixture.lp_tokens - 2 * 10 ^ 13 <= d <= Fixture.lp_tokens + 2 * 10 ^ 13 ->
  1066 * 10 ^ 15 <= K0 <= 1069 * 10 ^ 15 ->
  0 <= mul1 ->
  9 * 10 ^ 19 <= mul2 <= 14 * 10 ^ 19 ->
  let S := reference_S in
  let t := mul1 * 3 / K0 in
  let neg_fprime := (S + S * mul2 / 10 ^ 18) + t - mul2 * d / 10 ^ 18 in
  let D_plus := d * (neg_fprime + S) / neg_fprime in
  let D_minus :=
    d * d / neg_fprime
    - d * mul1 / neg_fprime / 10 ^ 18 * (K0 - 10 ^ 18) / K0 in
  0 < neg_fprime /\ d + 10 ^ 13 <= D_plus - D_minus.
Proof.
  intros Hd HK Hu Hm2 S t neg_fprime D_plus D_minus.
  unfold Fixture.lp_tokens in Hd.
  assert (HS : S = 868470528166809243186725223) by reflexivity.
  clearbody S.
  assert (Ht0 : 0 <= t) by (apply Z.div_pos; lia).
  assert (HtK : K0 * t <= mul1 * 3) by (apply Z.mul_div_le; lia).
  assert (Ha_hi : S * mul2 / 10 ^ 18 <= 140 * S).
  { apply Z.div_le_upper_bound; lia. }
  assert (Hb_lo : 0 <= mul2 * d / 10 ^ 18).
  { apply Z.div_pos; [|lia]. apply Z.mul_nonneg_nonneg; lia. }
  assert (Hab : mul2 * d / 10 ^ 18 <= S * mul2 / 10 ^ 18).
  { apply Z.div_le_mono; [lia|]. rewrite (Z.mul_comm S mul2).
    apply Z.mul_le_mono_nonneg_l; lia. }
  assert (Hnf_lo : S + t <= neg_fprime) by (subst neg_fprime; lia).
  assert (Hnf_hi : neg_fprime <= 141 * S + t) by (subst neg_fprime; lia).
  assert (Hnf : 0 < neg_fprime) by (lia).
  split; [exact Hnf|].
  assert (HDp : D_plus = d + d * S / neg_fprime).
  { subst D_plus. replace (d * (neg_fprime + S)) with (d * neg_fprime + d * S) by lia.
    apply Z.div_add_l. lia. }
  assert (Hquad : 849743149250045202008212976 * 18727378916724041178512247
                  <= d * (S - d)).
  { apply Z.mul_le_mono_nonneg; lia. }
  assert (Hfirst : (d * (S - d)) / neg_fprime <= d * S / neg_fprime - d * d / neg_fprime).
  { replace (d * (S - d)) with (d * S - d * d) by lia. apply div_sub_le, Hnf. }
  assert (Hfirst0 : 0 <= (d * (S - d)) / neg_fprime).
  { apply Z.div_pos; lia. }
  set (q := d * mul1 / neg_fprime) in *.
  set (r := q / 10 ^ 18 * (K0 - 10 ^ 18) / K0) in *.
  assert (Hq0 : 0 <= q).
  { subst q. apply Z.div_pos; [|lia]. apply Z.mul_nonneg_nonneg; lia. }
  assert (Hr0 : 0 <= r).
  { subst r. apply Z.div_pos; [|lia]. apply Z.mul_nonneg_nonneg; [|lia].
    apply Z.div_pos; lia. }
  assert (Hgain : 10 ^ 13 <= (d * (S - d)) / neg_fprime + r).
  { destruct (Z_le_gt_dec t (10 ^ 30)) as [Hsmall | Hbig].
    - assert (10 ^ 13 <= (d * (S - d)) / neg_fprime); [|lia].
      apply Z.div_le_lower_bound; [lia|].
      apply Z.le_trans with (2 := Hquad).
      apply Z.le_trans with ((141 * S + 10 ^ 30) * 10 ^ 13); lia.
    - assert (10 ^ 13 <= r); [|lia].
      assert (HdK : 849743149250045202008212976 * (1066 * 10 ^ 15) <= d * K0).
      { apply Z.mul_le_mono_nonneg; lia. }
      assert (HdKt : 849743149250045202008212976 * (1066 * 10 ^ 15) * t
                     <= d * (mul1 * 3)).
      { apply Z.le_trans with (d * K0 * t).
        - apply Z.mul_le_mono_nonneg_r; lia.
        - rewrite <- Z.mul_assoc. apply Z.mul_le_mono_nonneg_l; lia. }
      assert (Hq : 10 ^ 44 <= q).
      { subst q. apply Z.div_le_lower_bound; [lia|].
        apply Z.le_trans with (2 * t * 10 ^ 44); [lia|]. lia. }
      assert (Hq18 : 10 ^ 26 <= q / 10 ^ 18).
      { apply Z.div_le_lower_bound; lia. }
      subst r. apply Z.div_le_lower_bound; [lia|].
      apply Z.le_trans with (10 ^ 26 * (66 * 10 ^ 15)); [lia|].
      apply Z.mul_le_mono_nonneg; lia. }
  subst D_minus. fold q. fold r. lia.
Qed.

(** [let! v := a // b in ...] returned: [b] is non-zero and [v] is the
    quotient. *)
Ltac invert_floordiv H v Hv Hnz :=
  apply bind_Ok_inv in H as (v & Hv & H);
  apply floordiv_Ok_inv in Hv as [Hnz Hv].

Lemma reference_step_moves (ANN gamma d D : Z) :
  0 < ANN -> gamma_in_range gamma ->
  Fixture.lp_tokens - 2 * 10 ^ 13 <= d <= Fixture.lp_tokens + 2 * 10 ^ 13 ->
  newton_D_step ANN gamma 3 reference_x reference_S d = Ok D ->
  d + 10 ^ 13 <= D.
Proof.
  intros HANN [Hg_lo Hg_hi] Hd H.
  unfold MIN_GAMMA in Hg_lo. unfold MAX_GAMMA in Hg_hi.
  pose proof Hd as Hd'. unfold Fixture.lp_tokens in Hd'.
  unfold newton_D_step, reference_x in H.
  cbn [getitem lookup list_lookup bind] in H.
  invert_floordiv H t1 Ht1 Hnz1.
  invert_floordiv H t2 Ht2 Hnz2.
  invert_floordiv H K0 HK0 Hnz3.
  invert_floordiv H t4 Ht4 Hnz4.
  invert_floordiv H t5 Ht5 Hnz5.
  invert_floordiv H mul1 Hmul1 Hnz6.
  invert_floordiv H mul2 Hmul2 Hnz7.
  invert_floordiv H t Ht Hnz8.
  invert_floordiv H D_plus HDp Hnz9.
  invert_floordiv H D_minus HDm Hnz10.
  assert (Bt1 : 1044 * 10 ^ 15 <= t1 <= 1045 * 10 ^ 15).
  { rewrite Ht1. split;
      [apply Z.div_le_lower_bound | apply Z.div_le_upper_bound]; lia. }
  assert (Bt2 : 1062 * 10 ^ 15 <= t2 <= 1064 * 10 ^ 15).
  { rewrite Ht2. split;
      [apply Z.div_le_lower_bound | apply Z.div_le_upper_bound]; lia. }
  assert (BK0 : 1066 * 10 ^ 15 <= K0 <= 1069 * 10 ^ 15).
  { rewrite HK0. split;
      [apply Z.div_le_lower_bound | apply Z.div_le_upper_bound]; lia. }
  clear Ht1 Ht2 HK0 Hnz1 Hnz2 Hnz3 Bt1 Bt2 t1 t2.
  set (_g1k0 := Z.abs (gamma + 10 ^ 18 - K0) + 1) in *.
  assert (Bg : 46 * 10 ^ 15 <= _g1k0 <= 69 * 10 ^ 15) by (subst _g1k0; lia).
  clearbody _g1k0.
  assert (Bmul2 : 9 * 10 ^ 19 <= mul2 <= 14 * 10 ^ 19).
  { rewrite Hmul2. split;
      [apply Z.div_le_lower_bound | apply Z.div_le_upper_bound]; lia. }
  assert (Bt4 : 0 <= t4) by (rewrite Ht4; apply Z.div_pos; lia).
  assert (Bt5 : 0 <= t5).
  { rewrite Ht5. apply Z.div_pos; [|lia]. apply Z.mul_nonneg_nonneg; lia. }
  assert (Bmul1 : 0 <= mul1).
  { rewrite Hmul1. apply Z.div_pos; [|lia]. unfold A_MULTIPLIER.
    repeat apply Z.mul_nonneg_nonneg; lia. }
  clear Ht4 Ht5 Hmul1 Hmul2 Hnz4 Hnz5 Hnz6 Hnz7 Bt4 Bt5 t4 t5.
  assert (Hbranch : (10 ^ 18 >? K0) = false).
  { rewrite Z.gtb_ltb. apply Z.ltb_ge. lia. }
  rewrite Hbranch in H.
  apply bind_Ok_inv in H as (D_minus' & H' & H).
  invert_floordiv H' q Hq Hnz11.
  invert_floordiv H' r Hr Hnz12.
  injection H' as HDm'. injection H as HD.
  pose proof (reference_pass_gain d K0 mul1 mul2 Hd BK0 Bmul1 Bmul2)
    as [Hnf Hgain].
  cbv zeta in Hnf, Hgain.
  subst t q r D_minus D_minus' D_plus.
  destruct (Z.gtb_spec
              (d * (reference_S + reference_S * mul2 / 10 ^ 18 + mul1 * 3 / K0
                    - mul2 * d / 10 ^ 18 + reference_S)
               / (reference_S + reference_S * mul2 / 10 ^ 18 + mul1 * 3 / K0
                  - mul2 * d / 10 ^ 18))
              (d * d
               / (reference_S + reference_S * mul2 / 10 ^ 18 + mul1 * 3 / K0
                  - mul2 * d / 10 ^ 18)
               - d * mul1
                 / (reference_S + reference_S * mul2 / 10 ^ 18 + mul1 * 3 / K0
                    - mul2 * d / 10 ^ 18)
                 / 10 ^ 18 * (K0 - 10 ^ 18) / K0)) as [Hgt | Hle];
    rewrite <- HD; lia.
Qed.

(** Any value the loop returns is one pass away from a value within the
    convergence tolerance of it; near the fixture's [lp_tokens] figure a
    pass moves [D] by more than that. *)
Lemma reference_not_lp_tokens (ANN gamma K0_prev D : Z) :
  0 < ANN -> gamma_in_range gamma ->
  newton_D ANN gamma Fixture.virtual_balances K0_prev = Ok D ->
  ~ within_tolerance D Fixture.lp_tokens.
Proof.
  intros HANN Hgamma H Htol.
  unfold newton_D in H. rewrite reference_x_sorted in H.
  change (Z.of_nat (length reference_x)) with 3 in H.
  rewrite reference_S_sum in H.
  do 4 (apply bind_Ok_inv in H as (? & _ & H)).
  apply newton_D_loop_Ok_inv in H as (d & Hstep & Hdone & _).
  unfold within_tolerance, Fixture.lp_tokens in Htol.
  unfold newton_D_done in Hdone. apply Z.ltb_lt in Hdone.
  assert (Hd : Fixture.lp_tokens - 2 * 10 ^ 13 <= d
               <= Fixture.lp_tokens + 2 * 10 ^ 13)
    by (unfold Fixture.lp_tokens; lia).
  pose proof (reference_step_moves ANN gamma d D HANN Hgamma Hd Hstep).
  lia.
Qed.

(** C9, as stated, fails: for the reference state, with [ANN] the
    fixture's [A = 2000] scaled by [N**N * A_MULTIPLIER] and a [gamma]
    inside its range, the solve returns a value two per cent above
    [849743149250065202008212976], which is the fixture's [lp_tokens]. *)
Lemma reference_scenario_counterexample :
  ANN_in_range 3 (Fixture.A * 27 * A_MULTIPLIER) /\
  gamma_in_range (10 ^ 15) /\
  newton_D (Fixture.A * 27 * A_MULTIPLIER) (10 ^ 15)
    Fixture.virtual_balances 0
  = Ok 868470514720236510816331256 /\
  ~ within_tolerance 868470514720236510816331256 849743149250065202008212976.
Proof.
  split; [unfold ANN_in_range; vm_compute; split; discriminate|].
  split; [unfold gamma_in_range; vm_compute; split; discriminate|].
  split; [vm_compute; reflexivity|].
  unfold within_tolerance. lia.
Qed.

(** C9, amended.  For the reference state (balances
    [[295949605740077243186725223, 284320067518878 * 10**12,
    288200854907854 * 10**12]], [ANN = 2000 * 27 * 10000]) the invariant
    solve converges, to [868352530434309655165931460] with [gamma] at the
    lower end of its range and to [868470521182909968864877530] at the
    upper end; and for no positive [ANN], no [gamma] in
    [10**10, 2 * 10**16] and no prior [K0] does it return a value within
    the convergence tolerance of [849743149250065202008212976], the
    fixture's [lp_tokens]. *)
Theorem reference_scenario_solve :
  newton_D (Fixture.A * 27 * A_MULTIPLIER) MIN_GAMMA
    Fixture.virtual_balances 0
  = Ok 868352530434309655165931460 /\
  newton_D (Fixture.A * 27 * A_MULTIPLIER) MAX_GAMMA
    Fixture.virtual_balances 0
  = Ok 868470521182909968864877530 /\
  forall ANN gamma K0_prev D,
    0 < ANN -> gamma_in_range gamma ->
    newton_D ANN gamma Fixture.virtual_balances K0_prev = Ok D ->
    ~ within_tolerance D Fixture.lp_tokens.
Proof.
  split; [vm_compute; reflexivity|].
  split; [vm_compute; reflexivity|].
  exact reference_not_lp_tokens.
Qed.

Lemma reference_scenario_solve_witness :
  ~ within_tolerance 868470166770999403264808009 Fixture.lp_tokens.
Proof.
  apply (proj2 (proj2 reference_scenario_solve)
           (2000 * A_MULTIPLIER) (10 ^ 15) 0).
  - unfold A_MULTIPLIER. lia.
  - unfold gamma_in_range, MIN_GAMMA, MAX_GAMMA. lia.
  - vm_compute. reflexivity.
Defined.

(** * Further properties of the modelled code *)

(** ** [_snekmate_log_2]: rounding and range *)

(** X1.  On a 256-bit positive input the result, rounded down, is the
    position of the highest set bit. *)
Theorem snekmate_log_2_floor_bounds (x : Z) :
  0 < x < 2 ^ 256 ->
  0 <= _snekmate_log_2 x false <= 255 /\
  2 ^ _snekmate_log_2 x false <= x < 2 ^ (_snekmate_log_2 x false + 1).
Proof.
  intros Hx. rewrite (snekmate_log_2_floor x Hx).
  pose proof (Z.log2_spec x ltac:(lia)) as Hs.
  pose proof (Z.log2_nonneg x) as Hn.
  replace (Z.log2 x + 1) with (Z.succ (Z.log2 x)) by lia.
  split; [|exact Hs]. split; [exact Hn|].
  assert (Z.log2 x < 256); [|lia].
  apply Z.log2_lt_pow2; lia.
Qed.

Lemma snekmate_log_2_floor_bounds_witness :
  2 ^ _snekmate_log_2 1000 false <= 1000 < 2 ^ (_snekmate_log_2 1000 false + 1).
Proof. apply (snekmate_log_2_floor_bounds 1000). lia. Defined.

Lemma snekmate_log_2_roundup (x : Z) :
  _snekmate_log_2 x true
  = if Z.shiftl 1 (_snekmate_log_2 x false) <? x
    then _snekmate_log_2 x false + 1
    else _snekmate_log_2 x false.
Proof.
  unfold _snekmate_log_2.
  destruct (log_2_stage 2 _) as [value result].
  cbn [andb]. reflexivity.
Qed.

(** X2.  With [roundup] the result is the exponent of the least power of two
    that is not below the input. *)
Theorem snekmate_log_2_ceil_bounds (x : Z) :
  0 < x < 2 ^ 256 ->
  0 <= _snekmate_log_2 x true <= 256 /\
  x <= 2 ^ _snekmate_log_2 x true < 2 * x.
Proof.
  intros Hx.
  rewrite snekmate_log_2_roundup, (snekmate_log_2_floor x Hx).
  pose proof (Z.log2_spec x ltac:(lia)) as [Hlo Hhi].
  pose proof (Z.log2_nonneg x) as Hr0.
  assert (Hr : 0 <= Z.log2 x <= 255)
    by (split; [lia|]; assert (Z.log2 x < 256);
        [apply Z.log2_lt_pow2; lia | lia]).
  replace (Z.succ (Z.log2 x)) with (Z.log2 x + 1) in Hhi by lia.
  set (r := Z.log2 x) in *.
  rewrite Z.shiftl_1_l.
  replace (2 ^ (r + 1)) with (2 * 2 ^ r) in *
    by (rewrite Z.pow_add_r by lia; lia).
  destruct (Z.ltb_spec (2 ^ r) x) as [Hlt | Hge].
  - replace (2 ^ (r + 1)) with (2 * 2 ^ r)
      by (rewrite Z.pow_add_r by lia; lia).
    lia.
  - lia.
Qed.

Lemma snekmate_log_2_ceil_bounds_witness :
  1000 <= 2 ^ _snekmate_log_2 1000 true < 2 * 1000.
Proof. apply (snekmate_log_2_ceil_bounds 1000). lia. Defined.

Lemma log_2_stage_high (k v r : Z) :
  0 < k -> 2 ^ (2 * k - 1) <= v ->
  exists v', log_2_stage k (v, r) = (v', r + k) /\ 2 ^ (k - 1) <= v'.
Proof.
  intros Hk Hv. unfold log_2_stage.
  assert (Hsplit : 2 ^ (2 * k - 1) = 2 ^ (k - 1) * 2 ^ k).
  { replace (2 * k - 1) with (k - 1 + k) by lia. apply Z.pow_add_r; lia. }
  assert (Hpk : 0 < 2 ^ k) by (apply Z.pow_pos_nonneg; lia).
  assert (Hpk1 : 0 < 2 ^ (k - 1)) by (apply Z.pow_pos_nonneg; lia).
  assert (Hq : 2 ^ (k - 1) <= Z.shiftr v k).
  { rewrite Z.shiftr_div_pow2 by lia.
    apply Z.div_le_lower_bound; [lia|]. rewrite Z.mul_comm. lia. }
  destruct (Z.shiftr v k =? 0) eqn:E.
  - apply Z.eqb_eq in E. lia.
  - cbn [negb]. eauto.
Qed.

(** X3.  The eight stages can add at most [128 + 64 + ... + 1]: from
    [2**255] on the result rounded down is 255 whatever the size of the
    input, so beyond 256 bits the logarithm is under-reported. *)
Theorem snekmate_log_2_saturates (x : Z) :
  2 ^ 255 <= x -> _snekmate_log_2 x false = 255.
Proof.
  intros Hx. unfold _snekmate_log_2.
  destruct (log_2_stage_high 128 x 0 ltac:(lia) Hx) as (v1 & -> & H1).
  destruct (log_2_stage_high 64 v1 (0 + 128) ltac:(lia) H1) as (v2 & -> & H2).
  destruct (log_2_stage_high 32 v2 (0 + 128 + 64) ltac:(lia) H2)
    as (v3 & -> & H3).
  destruct (log_2_stage_high 16 v3 (0 + 128 + 64 + 32) ltac:(lia) H3)
    as (v4 & -> & H4).
  destruct (log_2_stage_high 8 v4 (0 + 128 + 64 + 32 + 16) ltac:(lia) H4)
    as (v5 & -> & H5).
  destruct (log_2_stage_high 4 v5 (0 + 128 + 64 + 32 + 16 + 8) ltac:(lia) H5)
    as (v6 & -> & H6).
  destruct (log_2_stage_high 2 v6 (0 + 128 + 64 + 32 + 16 + 8 + 4)
              ltac:(lia) H6) as (v7 & -> & H7).
  cbn [andb].
  assert (Hs : Z.shiftr v7 1 <> 0).
  { rewrite Z.shiftr_div_pow2 by lia. change (2 ^ (2 - 1)) with 2 in H7.
    change (2 ^ 1) with 2.
    assert (1 <= v7 / 2) by (apply Z.div_le_lower_bound; lia). lia. }
  apply Z.eqb_neq in Hs. rewrite Hs. reflexivity.
Qed.

Lemma snekmate_log_2_saturates_witness :
  _snekmate_log_2 (2 ^ 300) false = 255.
Proof. apply (snekmate_log_2_saturates (2 ^ 300)). vm_compute. discriminate. Defined.

(** ** Which exceptions a computation can raise *)

Lemma raises_only_Ok {A : Type} (P : exn -> Prop) (a : A) :
  raises_only P (Ok a).
Proof. intros e H. discriminate. Qed.

Lemma raises_only_Raise {A : Type} (P : exn -> Prop) (e : exn) :
  P e -> raises_only P (@Raise A e).
Proof. intros He e' [= <-]. exact He. Qed.

Lemma raises_only_bind {A B : Type} (P : exn -> Prop) (m : result A)
  (k : A -> result B) :
  raises_only P m -> (forall a, m = Ok a -> raises_only P (k a)) ->
  raises_only P (bind m k).
Proof.
  intros Hm Hk e H. destruct m as [a|e']; cbn in H.
  - exact (Hk a eq_refl e H).
  - apply Hm. injection H as ->. reflexivity.
Qed.

Lemma raises_only_mono {A : Type} (P Q : exn -> Prop) (m : result A) :
  (forall e, P e -> Q e) -> raises_only P m -> raises_only Q m.
Proof. intros HPQ Hm e H. auto. Qed.

Lemma raises_only_floordiv (P : exn -> Prop) (a b : Z) :
  P ZeroDivisionError -> raises_only P (a //? b).
Proof.
  intros HP e H. unfold floordiv in H.
  destruct (b =? 0); [|discriminate]. now injection H as <-.
Qed.

Lemma raises_only_getitem (P : exn -> Prop) (x : list Z) (i : nat) :
  P IndexError -> raises_only P (getitem x i).
Proof.
  intros HP e H. unfold getitem in H.
  destruct (x !! i); [discriminate|]. now injection H as <-.
Qed.

Lemma raises_only_assert (P : exn -> Prop) (c : bool) (msg : string) :
  P (AssertionError msg) -> raises_only P (assert c msg).
Proof.
  intros HP e H. unfold assert in H.
  destruct c; [discriminate|]. now injection H as <-.
Qed.

(** ** [geometric_mean]: equal values, empty input, zero seed *)

Lemma sorted_desc_Sorted (x : list Z) : Sorted Zdesc x -> sorted_desc x = x.
Proof.
  intros Hs. unfold sorted_desc. apply (Sorted_unique Zdesc).
  - apply Sorted_merge_sort; typeclasses eauto.
  - exact Hs.
  - apply merge_sort_Permutation.
Qed.

Lemma Sorted_replicate (n : nat) (v : Z) : Sorted Zdesc (replicate n v).
Proof.
  induction n as [|n IH]; cbn; constructor; [exact IH|].
  destruct n; cbn; constructor. unfold Zdesc. lia.
Qed.

Lemma sorted_desc_replicate (n : nat) (v : Z) :
  sorted_desc (replicate n v) = replicate n v.
Proof. apply sorted_desc_Sorted, Sorted_replicate. Qed.

Lemma geometric_mean_tmp_replicate (n : nat) (v tmp : Z) :
  v <> 0 -> geometric_mean_tmp (replicate n v) v tmp = Ok tmp.
Proof.
  intros Hv. induction n as [|n IH]; [reflexivity|].
  cbn [replicate geometric_mean_tmp].
  rewrite (floordiv_Ok _ v Hv). cbn [bind].
  rewrite Z.div_mul by exact Hv. exact IH.
Qed.

Lemma geometric_mean_step_replicate (n : nat) (v : Z) :
  (0 < n)%nat -> v <> 0 ->
  geometric_mean_step (Z.of_nat n) (replicate n v) v = Ok v.
Proof.
  intros Hn Hv. unfold geometric_mean_step.
  rewrite (geometric_mean_tmp_replicate n v _ Hv). cbn [bind].
  rewrite floordiv_Ok by lia. f_equal.
  replace ((Z.of_nat n - 1) * 10 ^ 18 + 10 ^ 18) with (Z.of_nat n * 10 ^ 18)
    by lia.
  apply Z.div_mul. lia.
Qed.

Lemma geometric_mean_replicate_unsorted (n : nat) (v : Z) :
  (0 < n)%nat -> v <> 0 -> geometric_mean (replicate n v) false = Ok v.
Proof.
  intros Hn Hv. unfold geometric_mean. rewrite length_replicate.
  assert (H0 : getitem (replicate n v) 0 = Ok v)
    by (destruct n; [lia | reflexivity]).
  rewrite H0. cbn [bind geometric_mean_loop].
  rewrite (geometric_mean_step_replicate n v Hn Hv). cbn [bind].
  unfold geometric_mean_done. rewrite Z.sub_diag. reflexivity.
Qed.

(** X7.  The mean of [n >= 1] copies of a non-zero value is that value,
    sorted or not: the first pass already reproduces it. *)
Theorem geometric_mean_equal_values (n : nat) (v : Z) (sort : bool) :
  (0 < n)%nat -> v <> 0 -> geometric_mean (replicate n v) sort = Ok v.
Proof.
  intros Hn Hv. destruct sort.
  - rewrite <- (geometric_mean_replicate_unsorted n v Hn Hv).
    unfold geometric_mean. now rewrite sorted_desc_replicate.
  - now apply geometric_mean_replicate_unsorted.
Qed.

Lemma geometric_mean_equal_values_witness :
  geometric_mean (replicate 3 (5 * 10 ^ 18)) true = Ok (5 * 10 ^ 18).
Proof. apply (geometric_mean_equal_values 3 (5 * 10 ^ 18) true); lia. Defined.

Lemma geometric_mean_tmp_exn (x : list Z) (D tmp : Z) :
  raises_only (fun e => e = ZeroDivisionError) (geometric_mean_tmp x D tmp).
Proof.
  revert tmp. induction x as [|_x rest IH]; intros tmp; cbn [geometric_mean_tmp].
  - apply raises_only_Ok.
  - apply raises_only_bind; [now apply raises_only_floordiv | auto].
Qed.

Lemma geometric_mean_loop_exn (fuel : nat) (n_coins : Z) (x : list Z) (D : Z) :
  raises_only
    (fun e => e = ZeroDivisionError \/ e = CalculationError "Did not converge")
    (geometric_mean_loop fuel n_coins x D).
Proof.
  revert D. induction fuel as [|fuel IH]; intros D; cbn [geometric_mean_loop].
  - apply raises_only_Raise. now right.
  - apply raises_only_bind.
    + unfold geometric_mean_step. apply raises_only_bind.
      * eapply raises_only_mono; [|apply geometric_mean_tmp_exn].
        intros e ->. now left.
      * intros tmp _. apply raises_only_floordiv. now left.
    + intros D' _. destruct (geometric_mean_done D D');
        [apply raises_only_Ok | apply IH].
Qed.

Lemma geometric_mean_raises (x : list Z) (sort : bool) :
  raises_only geometric_mean_exn (geometric_mean x sort).
Proof.
  unfold geometric_mean. apply raises_only_bind.
  - apply raises_only_getitem. now left.
  - intros D _. eapply raises_only_mono; [|apply geometric_mean_loop_exn].
    unfold geometric_mean_exn. intros e [-> | ->]; auto.
Qed.

Lemma geometric_mean_IndexError (x : list Z) (sort : bool) :
  geometric_mean x sort = Raise IndexError <-> x = [].
Proof.
  unfold geometric_mean.
  set (y := if sort then sorted_desc x else x).
  assert (Hlen : length y = length x)
    by (subst y; destruct sort; [apply sorted_desc_length | reflexivity]).
  split.
  - intros H. destruct y as [|y0 rest] eqn:Ey.
    + destruct x; [reflexivity | discriminate].
    + cbn [getitem lookup list_lookup bind] in H.
      destruct (geometric_mean_loop_exn _ _ _ _ _ H); discriminate.
  - intros ->. subst y. destruct sort; reflexivity.
Qed.

(** X8.  [geometric_mean] raises [IndexError] exactly on the empty list; on
    any other input the only exceptions are [ZeroDivisionError] and
    [CalculationError("Did not converge")]. *)
Theorem geometric_mean_exceptions (x : list Z) (sort : bool) :
  raises_only geometric_mean_exn (geometric_mean x sort) /\
  (geometric_mean x sort = Raise IndexError <-> x = []).
Proof.
  split.
  - apply geometric_mean_raises.
  - apply geometric_mean_IndexError.
Qed.

(** Without sorting the seed is [x[0]]: a zero first value divides by
    zero in the first pass, whatever follows. *)
Lemma geometric_mean_zero_seed (rest : list Z) :
  geometric_mean (0 :: rest) false = Raise ZeroDivisionError.
Proof. reflexivity. Qed.

(** ** Balanced pools *)

(** With [S = D] the two [mul2] terms of [neg_fprime] cancel, and
    [D_plus] exceeds [D * D // neg_fprime] by exactly [D]. *)
Lemma balanced_pass_core (D t mul2 : Z) :
  0 < D -> 0 <= t ->
  (D + D * mul2 / 10 ^ 18) + t - mul2 * D / 10 ^ 18 = D + t /\
  D * (D + t + D) / (D + t) = D + D * D / (D + t).
Proof.
  intros HD Ht. split.
  - rewrite (Z.mul_comm mul2 D). lia.
  - replace (D * (D + t + D)) with (D * (D + t) + D * D) by lia.
    apply Z.div_add_l. lia.
Qed.

Lemma mul1_nonneg (D gamma g ANN : Z) :
  0 <= D -> 0 < gamma -> 0 <= g -> 0 < ANN ->
  0 <= 10 ^ 18 * D / gamma * g / gamma * g * A_MULTIPLIER / ANN.
Proof.
  intros HD Hg Hg1 HA. unfold A_MULTIPLIER.
  apply Z.div_pos; [|lia].
  repeat apply Z.mul_nonneg_nonneg; try lia.
  apply Z.div_pos; [|lia]. apply Z.mul_nonneg_nonneg; [|lia].
  apply Z.div_pos; lia.
Qed.

Lemma newton_D_step_balanced (ANN gamma v : Z) :
  0 < ANN -> 0 < gamma -> 0 < v ->
  newton_D_step ANN gamma 3 [v; v; v] (3 * v) (3 * v) = Ok (3 * v).
Proof.
  intros HANN Hgamma Hv. unfold newton_D_step.
  cbn [getitem lookup list_lookup bind].
  assert (HK : forall a, a * v * 3 / (3 * v) = a).
  { intros a. replace (a * v * 3) with (a * (3 * v)) by lia.
    apply Z.div_mul. lia. }
  rewrite (floordiv_Ok _ (3 * v)) by lia. cbn [bind]. rewrite HK.
  rewrite (floordiv_Ok _ (3 * v)) by lia. cbn [bind]. rewrite HK.
  rewrite (floordiv_Ok _ (3 * v)) by lia. cbn [bind]. rewrite HK.
  set (_g1k0 := Z.abs (gamma + 10 ^ 18 - 10 ^ 18) + 1).
  assert (Hg1 : 0 < _g1k0) by (subst _g1k0; lia).
  rewrite (floordiv_Ok _ gamma) by lia. cbn [bind].
  rewrite (floordiv_Ok _ gamma) by lia. cbn [bind].
  rewrite (floordiv_Ok _ ANN) by lia. cbn [bind].
  pose proof (mul1_nonneg (3 * v) gamma _g1k0 ANN ltac:(lia) Hgamma
                ltac:(lia) HANN) as Hmul1.
  set (mul1 := 10 ^ 18 * (3 * v) / gamma * _g1k0 / gamma * _g1k0
               * A_MULTIPLIER / ANN) in *.
  rewrite (floordiv_Ok _ _g1k0) by lia. cbn [bind].
  set (mul2 := 2 * 10 ^ 18 * 3 * 10 ^ 18 / _g1k0).
  rewrite (floordiv_Ok _ (10 ^ 18)) by lia. cbn [bind].
  assert (Ht : 0 <= mul1 * 3 / 10 ^ 18) by (apply Z.div_pos; lia).
  set (t := mul1 * 3 / 10 ^ 18) in *.
  destruct (balanced_pass_core (3 * v) t mul2 ltac:(lia) Ht) as [Hnf HDp].
  rewrite Hnf.
  rewrite (floordiv_Ok _ (3 * v + t)) by lia. cbn [bind].
  rewrite (floordiv_Ok _ (3 * v + t)) by lia. cbn [bind].
  rewrite HDp.
  change (10 ^ 18 >? 10 ^ 18) with false. cbv iota.
  rewrite (floordiv_Ok _ (3 * v + t)) by lia. cbn [bind].
  rewrite (floordiv_Ok _ (10 ^ 18)) by lia. cbn [bind].
  rewrite Z.sub_diag, Z.mul_0_r, Z.div_0_l by lia. rewrite Z.sub_0_r.
  f_equal.
  destruct (Z.gtb_spec (3 * v + 3 * v * (3 * v) / (3 * v + t))
                       (3 * v * (3 * v) / (3 * v + t))); lia.
Qed.

Lemma check_safe_balanced (n : nat) (v : Z) :
  (0 < n <= 100)%nat -> 0 < v ->
  check_safe (Z.of_nat n * v) (replicate n v) = Ok tt.
Proof.
  intros Hn Hv. apply check_safe_Ok; [lia|].
  apply Forall_replicate. unfold in_band.
  replace (v * 10 ^ 18 / (Z.of_nat n * v)) with (10 ^ 18 / Z.of_nat n)
    by (rewrite (Z.mul_comm (Z.of_nat n) v);
        symmetry; apply Z.div_mul_cancel_l; lia).
  split.
  - apply Z.div_le_lower_bound; lia.
  - apply Z.div_le_upper_bound; lia.
Qed.

(** X9.  A pool of three equal balances [v] solves to [D = 3 * v], the sum
    of the balances, in the first pass and for every positive [ANN] and
    [gamma]. *)
Theorem newton_D_balanced (ANN gamma v : Z) :
  0 < ANN -> 0 < gamma ->
  0 < v < (2 ^ 256 - 1) / 10 ^ 18 * 27 ->
  newton_D ANN gamma [v; v; v] 0 = Ok (3 * v).
Proof.
  intros HANN Hgamma Hv. unfold newton_D.
  change [v; v; v] with (replicate 3 v).
  rewrite (sorted_desc_replicate 3 v). cbn [replicate length].
  change (Z.of_nat 3) with 3.
  cbn [getitem lookup list_lookup bind].
  change (3 ^ 3) with 27.
  assert (H1 : (v <? (2 ^ 256 - 1) / 10 ^ 18 * 27) = true)
    by (apply Z.ltb_lt; lia).
  assert (H2 : (v >? 0) = true) by (rewrite Z.gtb_ltb; apply Z.ltb_lt; lia).
  rewrite H1, H2. cbn [assert bind].
  unfold newton_D_guess. cbn [Z.eqb].
  pose proof (geometric_mean_replicate_unsorted 3 v ltac:(lia) ltac:(lia))
    as Hgm.
  cbn [replicate] in Hgm. rewrite Hgm.
  cbn [bind].
  replace (sum [v; v; v]) with (3 * v) by (unfold sum; cbn; lia).
  cbn [newton_D_loop].
  rewrite (newton_D_step_balanced ANN gamma v HANN Hgamma ltac:(lia)).
  cbn [bind].
  assert (Hd : newton_D_done (3 * v) (3 * v) = true).
  { unfold newton_D_done. rewrite Z.sub_diag. apply Z.ltb_lt. cbn [Z.abs]. lia. }
  rewrite Hd.
  pose proof (check_safe_balanced 3 v ltac:(lia) ltac:(lia)) as Hcs.
  cbn [replicate] in Hcs. change (Z.of_nat 3) with 3 in Hcs.
  rewrite Hcs. reflexivity.
Qed.

Lemma newton_D_balanced_witness :
  newton_D 540000000 (10 ^ 15) [7 * 10 ^ 20; 7 * 10 ^ 20; 7 * 10 ^ 20] 0
  = Ok (3 * (7 * 10 ^ 20)).
Proof.
  apply (newton_D_balanced 540000000 (10 ^ 15) (7 * 10 ^ 20)); try lia.
  split; [lia|]. vm_compute. reflexivity.
Defined.

Lemma sum_replicate (n : nat) (v : Z) : sum (replicate n v) = Z.of_nat n * v.
Proof.
  unfold sum.
  assert (H : forall a, fold_left Z.add (replicate n v) a = a + Z.of_nat n * v).
  { induction n as [|n IH]; intros a; cbn [replicate fold_left]; [lia|].
    rewrite IH. lia. }
  rewrite H. lia.
Qed.

Lemma Shadowed_check_ratios_replicate (m : nat) (v : Z) :
  0 < v -> Shadowed.check_ratios v (replicate m v) = Ok tt.
Proof.
  intros Hv. induction m as [|m IH]; [reflexivity|].
  cbn [replicate Shadowed.check_ratios].
  rewrite floordiv_Ok by lia. cbn [bind].
  rewrite (Z.mul_comm v), Z.div_mul by lia.
  cbn [assert bind]. exact IH.
Qed.

Lemma Shadowed_K0_loop_replicate (m : nat) (n_coins v K0 : Z) :
  0 < n_coins -> 0 < v ->
  Shadowed.K0_loop n_coins (n_coins * v) (replicate m v) K0 = Ok K0.
Proof.
  intros Hn Hv. induction m as [|m IH]; [reflexivity|].
  cbn [replicate Shadowed.K0_loop].
  rewrite floordiv_Ok by lia. cbn [bind].
  replace (K0 * v * n_coins) with (K0 * (n_coins * v)) by lia.
  rewrite Z.div_mul by lia. exact IH.
Qed.

Lemma Shadowed_check_safe_replicate (n m : nat) (v : Z) :
  (0 < n <= 100)%nat -> 0 < v ->
  Shadowed.check_safe (Z.of_nat n * v) (replicate m v) = Ok tt.
Proof.
  intros Hn Hv. induction m as [|m IH]; [reflexivity|].
  cbn [replicate Shadowed.check_safe].
  rewrite floordiv_Ok by lia. cbn [bind].
  replace (v * 10 ^ 18 / (Z.of_nat n * v)) with (10 ^ 18 / Z.of_nat n)
    by (rewrite (Z.mul_comm (Z.of_nat n) v);
        symmetry; apply Z.div_mul_cancel_l; lia).
  assert (H1 : 10 ^ 16 <= 10 ^ 18 / Z.of_nat n)
    by (apply Z.div_le_lower_bound; lia).
  assert (H2 : 10 ^ 18 / Z.of_nat n <= 10 ^ 20)
    by (apply Z.div_le_upper_bound; lia).
  apply Z.ltb_ge in H1. apply Z.ltb_ge in H2. rewrite H1, H2.
  cbn [orb]. exact IH.
Qed.

Lemma Shadowed_K0_balanced (n : nat) (v : Z) :
  (0 < n)%nat -> 0 < v ->
  (if Z.of_nat n =? 2
   then
     let! x0 := getitem (replicate n v) 0 in
     let! t := 10 ^ 18 * Z.of_nat n ^ 2 * x0 //? (Z.of_nat n * v) in
     let! x1 := getitem (replicate n v) 1 in
     t * x1 //? (Z.of_nat n * v)
   else Shadowed.K0_loop (Z.of_nat n) (Z.of_nat n * v) (replicate n v)
          (10 ^ 18))
  = Ok (10 ^ 18).
Proof.
  intros Hn Hv. destruct (Z.eqb_spec (Z.of_nat n) 2) as [E|E].
  - assert (n = 2%nat) by lia. subst n.
    cbn [replicate getitem lookup list_lookup bind].
    change (Z.of_nat 2) with 2.
    rewrite floordiv_Ok by lia. cbn [bind].
    replace (10 ^ 18 * 2 ^ 2 * v) with (2 * 10 ^ 18 * (2 * v)) by lia.
    rewrite Z.div_mul by lia.
    rewrite floordiv_Ok by lia.
    replace (2 * 10 ^ 18 * v) with (10 ^ 18 * (2 * v)) by lia.
    rewrite Z.div_mul by lia. reflexivity.
  - apply Shadowed_K0_loop_replicate; lia.
Qed.

Lemma Shadowed_newton_D_step_balanced (ANN gamma v : Z) (n : nat) :
  0 < ANN -> 0 < gamma -> 0 < v -> (0 < n)%nat ->
  Shadowed.newton_D_step ANN gamma (Z.of_nat n) (replicate n v)
    (Z.of_nat n * v) (Z.of_nat n * v)
  = Ok (Z.of_nat n * v).
Proof.
  intros HANN Hgamma Hv Hn. unfold Shadowed.newton_D_step.
  rewrite (Shadowed_K0_balanced n v Hn Hv). cbn [bind].
  set (D := Z.of_nat n * v). assert (HD : 0 < D) by (subst D; lia).
  set (_g1k0 := Z.abs (gamma + 10 ^ 18 - 10 ^ 18) + 1).
  assert (Hg1 : 0 < _g1k0) by (subst _g1k0; lia).
  rewrite (floordiv_Ok _ gamma) by lia. cbn [bind].
  rewrite (floordiv_Ok _ gamma) by lia. cbn [bind].
  rewrite (floordiv_Ok _ ANN) by lia. cbn [bind].
  pose proof (mul1_nonneg D gamma _g1k0 ANN ltac:(lia) Hgamma
                ltac:(lia) HANN) as Hmul1.
  set (mul1 := 10 ^ 18 * D / gamma * _g1k0 / gamma * _g1k0
               * A_MULTIPLIER / ANN) in *.
  rewrite (floordiv_Ok _ _g1k0) by lia. cbn [bind].
  set (mul2 := 2 * 10 ^ 18 * Z.of_nat n * 10 ^ 18 / _g1k0).
  rewrite (floordiv_Ok _ (10 ^ 18)) by lia. cbn [bind].
  assert (Ht : 0 <= mul1 * Z.of_nat n / 10 ^ 18)
    by (apply Z.div_pos; [apply Z.mul_nonneg_nonneg|]; lia).
  set (t := mul1 * Z.of_nat n / 10 ^ 18) in *.
  destruct (balanced_pass_core D t mul2 HD Ht) as [Hnf HDp].
  rewrite Hnf.
  rewrite (floordiv_Ok _ (D + t)) by lia. cbn [bind].
  rewrite (floordiv_Ok _ (D + t)) by lia. cbn [bind].
  rewrite HDp.
  change (10 ^ 18 >? 10 ^ 18) with false. cbv iota.
  rewrite (floordiv_Ok _ (D + t)) by lia. cbn [bind].
  rewrite (floordiv_Ok _ (10 ^ 18)) by lia. cbn [bind].
  rewrite Z.sub_diag, Z.mul_0_r, Z.div_0_l by lia. rewrite Z.sub_0_r.
  f_equal.
  destruct (Z.gtb_spec (D + D * D / (D + t)) (D * D / (D + t))); lia.
Qed.

(** X13.  The earlier definition, on a pool of [n] equal balances [v] with
    [1 <= n <= 100] and every documented precondition met, returns
    [D = n * v]; this includes the two-coin pools its [n_coins == 2]
    branch is written for. *)
Theorem Shadowed_newton_D_balanced (ANN gamma v : Z) (n : nat) :
  (0 < n <= 100)%nat ->
  ANN_in_range (Z.of_nat n) ANN -> gamma_in_range gamma ->
  10 ^ 9 <= v <= 10 ^ 15 * 10 ^ 18 ->
  Shadowed.newton_D ANN gamma (replicate n v) = Ok (Z.of_nat n * v).
Proof.
  intros Hn [HA1 HA2] [Hg1 Hg2] Hv. unfold Shadowed.newton_D.
  rewrite length_replicate.
  assert (Hpow : 0 < Z.of_nat n ^ Z.of_nat n)
    by (apply Z.pow_pos_nonneg; lia).
  assert (HANN : 0 < ANN).
  { apply Z.lt_le_trans with (2 := HA1).
    apply Z.div_str_pos. unfold A_MULTIPLIER. lia. }
  assert (Hgamma : 0 < gamma) by (unfold MIN_GAMMA in Hg1; lia).
  apply Z.leb_le in HA1, HA2, Hg1, Hg2. rewrite HA1, HA2, Hg1, Hg2.
  cbn [andb negb].
  rewrite sorted_desc_replicate.
  assert (H0 : getitem (replicate n v) 0 = Ok v)
    by (destruct n; [lia | reflexivity]).
  rewrite H0. cbn [bind].
  assert (Hr : ((10 ^ 9 <=? v) && (v <=? 10 ^ 15 * 10 ^ 18)) = true).
  { apply andb_true_intro. split; apply Z.leb_le; lia. }
  rewrite Hr. cbn [assert bind].
  assert (Htl : tail (replicate n v) = replicate (Nat.pred n) v)
    by (destruct n; reflexivity).
  rewrite Htl, Shadowed_check_ratios_replicate by lia. cbn [bind].
  rewrite (geometric_mean_replicate_unsorted n v) by lia. cbn [bind].
  rewrite sum_replicate.
  cbn [Shadowed.newton_D_loop].
  rewrite Shadowed_newton_D_step_balanced by lia. cbn [bind].
  assert (Hd : newton_D_done (Z.of_nat n * v) (Z.of_nat n * v) = true).
  { unfold newton_D_done. rewrite Z.sub_diag. apply Z.ltb_lt. cbn [Z.abs]. lia. }
  rewrite Hd, (Shadowed_check_safe_replicate n n v) by lia. reflexivity.
Qed.

Lemma Shadowed_newton_D_balanced_witness :
  Shadowed.newton_D 4000000 25000000000000 (replicate 2 (10 ^ 21))
  = Ok (Z.of_nat 2 * 10 ^ 21).
Proof.
  apply (Shadowed_newton_D_balanced 4000000 25000000000000 (10 ^ 21) 2).
  - lia.
  - unfold ANN_in_range. vm_compute. split; discriminate.
  - unfold gamma_in_range. vm_compute. split; discriminate.
  - lia.
Defined.

(** ** [newton_D]: order of the balances, size of the result, exceptions *)

(** X10.  Both definitions sort the balances first, so the outcome (value or
    exception) does not depend on the order in which they are passed. *)
Theorem newton_D_permutation_invariant
  (ANN gamma K0_prev : Z) (x y : list Z) :
  x ≡ₚ y ->
  newton_D ANN gamma x K0_prev = newton_D ANN gamma y K0_prev /\
  Shadowed.newton_D ANN gamma x = Shadowed.newton_D ANN gamma y.
Proof.
  intros Hp. unfold newton_D, Shadowed.newton_D.
  rewrite (sorted_desc_Permutation x y Hp), (Permutation_length Hp).
  split; reflexivity.
Qed.

Lemma newton_D_permutation_invariant_witness :
  newton_D 270000 (10 ^ 15) [10 ^ 18; 2 * 10 ^ 18; 3 * 10 ^ 18] 0
  = newton_D 270000 (10 ^ 15) [3 * 10 ^ 18; 10 ^ 18; 2 * 10 ^ 18] 0.
Proof.
  apply (newton_D_permutation_invariant 270000 (10 ^ 15) 0
           [10 ^ 18; 2 * 10 ^ 18; 3 * 10 ^ 18]
           [3 * 10 ^ 18; 10 ^ 18; 2 * 10 ^ 18]).
  symmetry.
  apply (Permutation_cons_append [10 ^ 18; 2 * 10 ^ 18] (3 * 10 ^ 18)).
Defined.

Lemma in_band_positive (D xi : Z) :
  0 < D -> in_band D xi ->
  0 < xi /\ D <= 100 * xi /\ xi * 10 ^ 18 < (10 ^ 20 + 1) * D.
Proof.
  unfold in_band. intros HD [Hlo Hhi].
  pose proof (Z.mul_div_le (xi * 10 ^ 18) D HD) as H1.
  pose proof (Z.mul_succ_div_gt (xi * 10 ^ 18) D HD) as H2.
  assert (H3 : D * 10 ^ 16 <= D * (xi * 10 ^ 18 / D))
    by (apply Z.mul_le_mono_nonneg_l; lia).
  assert (H4 : D * Z.succ (xi * 10 ^ 18 / D) <= D * (10 ^ 20 + 1))
    by (apply Z.mul_le_mono_nonneg_l; lia).
  lia.
Qed.

Lemma in_band_sign (D xi : Z) : 0 < xi -> in_band D xi -> 0 < D.
Proof.
  unfold in_band. intros Hxi [Hlo _].
  destruct (Z_lt_le_dec 0 D) as [|HD]; [assumption|exfalso].
  destruct (Z.eq_dec D 0) as [-> | Hne].
  - rewrite Z.div_0_r in Hlo. lia.
  - pose proof (Z.div_mod (xi * 10 ^ 18) D Hne) as Hdm.
    pose proof (Z.mod_neg_bound (xi * 10 ^ 18) D ltac:(lia)) as Hmb.
    assert (D * (xi * 10 ^ 18 / D) <= D * 10 ^ 16)
      by (apply Z.mul_le_mono_nonpos_l; lia).
    lia.
Qed.

(** X11.  Whatever [newton_D] returns is positive and within a factor 100
    of every balance; so all balances are positive and no balance reaches
    [10**4 + 10**-16] times another: a pool more lopsided than that never
    solves. *)
Theorem newton_D_result_bounds
  (ANN gamma K0_prev D : Z) (x_unsorted : list Z) :
  newton_D ANN gamma x_unsorted K0_prev = Ok D ->
  0 < D /\
  (forall xi, xi ∈ x_unsorted ->
     0 < xi /\ D <= 100 * xi /\ xi * 10 ^ 18 < (10 ^ 20 + 1) * D) /\
  (forall xi xj, xi ∈ x_unsorted -> xj ∈ x_unsorted ->
     xi * 10 ^ 18 < (10 ^ 22 + 100) * xj).
Proof.
  intros H.
  pose proof (newton_D_Ok_inv _ _ _ _ _ H) as (d & _ & _ & Hband).
  cbv zeta in Hband. unfold newton_D in H.
  apply bind_Ok_inv in H as (x0 & Hx0 & H).
  apply bind_Ok_inv in H as ([] & _ & H).
  apply bind_Ok_inv in H as ([] & Hpos & _).
  unfold assert in Hpos. destruct (x0 >? 0) eqn:E; [|discriminate].
  rewrite Z.gtb_ltb in E. apply Z.ltb_lt in E.
  unfold getitem in Hx0.
  destruct (sorted_desc x_unsorted !! 0%nat) as [x0'|] eqn:E0; [|discriminate].
  injection Hx0 as ->.
  rewrite Forall_forall in Hband.
  assert (HD : 0 < D).
  { apply (in_band_sign D x0 E). apply Hband.
    apply list_elem_of_lookup. eauto. }
  assert (Hall : forall xi, xi ∈ x_unsorted ->
            0 < xi /\ D <= 100 * xi /\ xi * 10 ^ 18 < (10 ^ 20 + 1) * D).
  { intros xi Hin. apply (in_band_positive D xi HD). apply Hband.
    unfold sorted_desc. now rewrite merge_sort_Permutation. }
  split; [exact HD|]. split; [exact Hall|].
  intros xi xj Hi Hj.
  destruct (Hall xi Hi) as (_ & _ & Hi3).
  destruct (Hall xj Hj) as (_ & Hj2 & _). lia.
Qed.

Lemma newton_D_result_bounds_witness :
  0 < 5475211707952497546 /\
  (forall xi, xi ∈ [10 ^ 18; 2 * 10 ^ 18; 3 * 10 ^ 18] ->
     0 < xi /\ 5475211707952497546 <= 100 * xi /\
     xi * 10 ^ 18 < (10 ^ 20 + 1) * 5475211707952497546) /\
  (forall xi xj, xi ∈ [10 ^ 18; 2 * 10 ^ 18; 3 * 10 ^ 18] ->
     xj ∈ [10 ^ 18; 2 * 10 ^ 18; 3 * 10 ^ 18] ->
     xi * 10 ^ 18 < (10 ^ 22 + 100) * xj).
Proof.
  apply (newton_D_result_bounds 270000 (10 ^ 15) 0 5475211707952497546
           [10 ^ 18; 2 * 10 ^ 18; 3 * 10 ^ 18]).
  vm_compute. reflexivity.
Defined.

Lemma raises_only_getitem_lt (P : exn -> Prop) (x : list Z) (i : nat) :
  ((length x <= i)%nat -> P IndexError) -> raises_only P (getitem x i).
Proof.
  intros HP e H. unfold getitem in H.
  destruct (x !! i) eqn:E; [discriminate|]. injection H as <-.
  apply HP. now apply lookup_ge_None.
Qed.

Lemma cbrt_exn (P : exn -> Prop) (x : Z) :
  P ZeroDivisionError -> raises_only P (_cbrt x).
Proof.
  intros HZ. unfold _cbrt.
  repeat (apply raises_only_bind;
          [unfold cbrt_newton; apply raises_only_bind;
           [now apply raises_only_floordiv | intros; apply raises_only_Ok]
          | intros ? _]).
  apply raises_only_Ok.
Qed.

Lemma check_safe_exn (P : exn -> Prop) (D : Z) (x : list Z) :
  P ZeroDivisionError -> P (AssertionError "Unsafe values x[i]") ->
  raises_only P (check_safe D x).
Proof.
  intros HZ HA. induction x as [|_x rest IH]; cbn [check_safe].
  - apply raises_only_Ok.
  - apply raises_only_bind; [now apply raises_only_floordiv|].
    intros frac _. apply raises_only_bind; [|intros; exact IH].
    now apply raises_only_assert.
Qed.

(** The loop body reads [x[0]], [x[1]], [x[2]] and divides. *)
Lemma newton_D_step_exn (P : exn -> Prop) (ANN gamma N_COINS : Z)
  (x : list Z) (S D : Z) :
  P ZeroDivisionError -> ((length x < 3)%nat -> P IndexError) ->
  raises_only P (newton_D_step ANN gamma N_COINS x S D).
Proof.
  intros HZ HI. unfold newton_D_step.
  repeat (apply raises_only_bind;
          [first [ apply raises_only_getitem_lt; intros; apply HI; lia
                 | now apply raises_only_floordiv ]
          | intros ? _]).
  apply raises_only_bind; [|intros; apply raises_only_Ok].
  destruct (10 ^ 18 >? _);
    repeat (apply raises_only_bind;
            [now apply raises_only_floordiv | intros ? _]);
    apply raises_only_Ok.
Qed.

Lemma newton_D_loop_exn (P : exn -> Prop) (fuel : nat)
  (ANN gamma N_COINS : Z) (x : list Z) (S D : Z) :
  P ZeroDivisionError -> ((length x < 3)%nat -> P IndexError) ->
  P (AssertionError "Unsafe values x[i]") ->
  P (CalculationError "Did not converge") ->
  raises_only P (newton_D_loop fuel ANN gamma N_COINS x S D).
Proof.
  intros HZ HI HA HC. revert D.
  induction fuel as [|fuel IH]; intros D; cbn [newton_D_loop].
  - now apply raises_only_Raise.
  - apply raises_only_bind; [now apply newton_D_step_exn|].
    intros D' _. destruct (newton_D_done D D'); [|apply IH].
    apply raises_only_bind; [|intros; apply raises_only_Ok].
    now apply check_safe_exn.
Qed.

Lemma newton_D_guess_exn (P : exn -> Prop) (N_COINS : Z) (x : list Z)
  (S K0_prev : Z) :
  P ZeroDivisionError -> ((length x < 3)%nat -> P IndexError) ->
  P (CalculationError "Did not converge") ->
  raises_only P (newton_D_guess N_COINS x S K0_prev).
Proof.
  intros HZ HI HC. unfold newton_D_guess. destruct (K0_prev =? 0).
  - apply raises_only_bind; [|intros; apply raises_only_Ok].
    intros e He.
    destruct (geometric_mean_raises x false e He) as [-> | [-> | ->]];
      try assumption.
    apply geometric_mean_IndexError in He. subst x. apply HI. cbn. lia.
  - repeat (apply raises_only_bind;
            [first [ apply raises_only_getitem_lt; intros; apply HI; lia
                   | now apply raises_only_floordiv ]
            | intros ? _]).
    now apply cbrt_exn.
Qed.

(** X12.  The only exceptions that leave [newton_D] are the bare
    [AssertionError] of the bound on the largest balance,
    [AssertionError("Unsafe values x[i]")],
    [CalculationError("Did not converge")], [IndexError] and
    [ZeroDivisionError]; in particular never [CurvesimValueError].
    [IndexError] occurs only for fewer than three balances. *)
Theorem newton_D_exceptions (ANN gamma K0_prev : Z) (x_unsorted : list Z) :
  raises_only newton_D_exn (newton_D ANN gamma x_unsorted K0_prev) /\
  (newton_D ANN gamma x_unsorted K0_prev = Raise IndexError ->
   (length x_unsorted < 3)%nat) /\
  (forall msg, newton_D ANN gamma x_unsorted K0_prev
               <> Raise (CurvesimValueError msg)).
Proof.
  set (P := fun e => newton_D_exn e /\
                     (e = IndexError -> (length x_unsorted < 3)%nat)).
  assert (HZ : P ZeroDivisionError)
    by (split; [unfold newton_D_exn; auto 6 | discriminate]).
  assert (HA0 : P (AssertionError ""))
    by (split; [unfold newton_D_exn; auto 6 | discriminate]).
  assert (HA : P (AssertionError "Unsafe values x[i]"))
    by (split; [unfold newton_D_exn; auto 6 | discriminate]).
  assert (HC : P (CalculationError "Did not converge"))
    by (split; [unfold newton_D_exn; auto 6 | discriminate]).
  assert (HI : (length (sorted_desc x_unsorted) < 3)%nat -> P IndexError).
  { rewrite sorted_desc_length. intros Hlen.
    split; [unfold newton_D_exn; auto 6 | auto]. }
  assert (Hfull : raises_only P (newton_D ANN gamma x_unsorted K0_prev)).
  { unfold newton_D.
    apply raises_only_bind;
      [apply raises_only_getitem_lt; intros; apply HI; lia|].
    intros x0 _. apply raises_only_bind; [now apply raises_only_assert|].
    intros _ _. apply raises_only_bind; [now apply raises_only_assert|].
    intros _ _. apply raises_only_bind; [now apply newton_D_guess_exn|].
    intros D0 _. now apply newton_D_loop_exn. }
  split; [|split].
  - eapply raises_only_mono; [|exact Hfull]. now intros e [He _].
  - intros H. now apply (Hfull _ H).
  - intros msg H. destruct (Hfull _ H) as [He _].
    unfold newton_D_exn in He.
    destruct He as [He | [He | [He | [He | He]]]]; discriminate.
Qed.

Lemma newton_D_exceptions_witness :
  (length [10 ^ 21; 10 ^ 21] < 3)%nat.
Proof.
  apply (proj1 (proj2 (newton_D_exceptions 4000000 25000000000000 0
                         [10 ^ 21; 10 ^ 21]))).
  vm_compute. reflexivity.
Defined.

(** ** The earlier definition: parameter checks and ratio pre-check *)

Lemma Shadowed_K0_loop_exn (P : exn -> Prop) (n_coins D : Z) (x : list Z)
  (K0 : Z) :
  P ZeroDivisionError -> raises_only P (Shadowed.K0_loop n_coins D x K0).
Proof.
  intros HZ. revert K0.
  induction x as [|_x rest IH]; intros K0; cbn [Shadowed.K0_loop].
  - apply raises_only_Ok.
  - apply raises_only_bind; [now apply raises_only_floordiv | auto].
Qed.

Lemma Shadowed_newton_D_step_exn (P : exn -> Prop) (ANN gamma n_coins : Z)
  (x : list Z) (S D : Z) :
  P ZeroDivisionError -> P IndexError ->
  raises_only P (Shadowed.newton_D_step ANN gamma n_coins x S D).
Proof.
  intros HZ HI. unfold Shadowed.newton_D_step.
  apply raises_only_bind.
  { destruct (n_coins =? 2); [|now apply Shadowed_K0_loop_exn].
    repeat (apply raises_only_bind;
            [first [ now apply raises_only_getitem
                   | now apply raises_only_floordiv ]
            | intros ? _]).
    now apply raises_only_floordiv. }
  intros K0 _.
  repeat (apply raises_only_bind;
          [now apply raises_only_floordiv | intros ? _]).
  apply raises_only_bind; [|intros; apply raises_only_Ok].
  destruct (10 ^ 18 >? _);
    repeat (apply raises_only_bind;
            [now apply raises_only_floordiv | intros ? _]);
    apply raises_only_Ok.
Qed.

Lemma Shadowed_check_safe_exn (P : exn -> Prop) (D : Z) (x : list Z) :
  P ZeroDivisionError -> P (CalculationError "Unsafe value for x[i]") ->
  raises_only P (Shadowed.check_safe D x).
Proof.
  intros HZ HC. induction x as [|_x rest IH]; cbn [Shadowed.check_safe].
  - apply raises_only_Ok.
  - apply raises_only_bind; [now apply raises_only_floordiv|].
    intros frac _. destruct (_ || _); [now apply raises_only_Raise | exact IH].
Qed.

Lemma Shadowed_check_ratios_exn (P : exn -> Prop) (x0 : Z) (rest : list Z) :
  P ZeroDivisionError -> P (AssertionError "") ->
  raises_only P (Shadowed.check_ratios x0 rest).
Proof.
  intros HZ HA. induction rest as [|xi rest IH]; cbn [Shadowed.check_ratios].
  - apply raises_only_Ok.
  - apply raises_only_bind; [now apply raises_only_floordiv|].
    intros frac _. apply raises_only_bind; [|intros; exact IH].
    now apply raises_only_assert.
Qed.

Lemma Shadowed_newton_D_loop_exn (P : exn -> Prop) (fuel : nat)
  (ANN gamma n_coins : Z) (x : list Z) (S D : Z) :
  P ZeroDivisionError -> P IndexError ->
  P (CalculationError "Unsafe value for x[i]") ->
  P (CalculationError "Did not converge") ->
  raises_only P (Shadowed.newton_D_loop fuel ANN gamma n_coins x S D).
Proof.
  intros HZ HI HU HC. revert D.
  induction fuel as [|fuel IH]; intros D; cbn [Shadowed.newton_D_loop].
  - now apply raises_only_Raise.
  - apply raises_only_bind; [now apply Shadowed_newton_D_step_exn|].
    intros D' _. destruct (newton_D_done D D'); [|apply IH].
    apply raises_only_bind; [|intros; apply raises_only_Ok].
    now apply Shadowed_check_safe_exn.
Qed.

Lemma range_check_reflect (lo hi a : Z) :
  negb ((lo <=? a) && (a <=? hi)) = false <-> lo <= a <= hi.
Proof.
  destruct (Z.leb_spec lo a), (Z.leb_spec a hi); cbn; split;
    (lia || discriminate || reflexivity).
Qed.

(** X14.  The earlier definition raises [CurvesimValueError] exactly when
    [ANN] is outside its range ("Unsafe value for A", whatever [gamma] and
    the balances are) or [ANN] is inside and [gamma] outside ("Unsafe
    value for gamma"); nothing after these two checks raises that
    class. *)
Theorem Shadowed_newton_D_unsafe_parameter
  (ANN gamma : Z) (x_unsorted : list Z) (msg : string) :
  Shadowed.newton_D ANN gamma x_unsorted = Raise (CurvesimValueError msg)
  <->
  (msg = "Unsafe value for A" /\
   ~ ANN_in_range (Z.of_nat (length x_unsorted)) ANN) \/
  (msg = "Unsafe value for gamma" /\
   ANN_in_range (Z.of_nat (length x_unsorted)) ANN /\
   ~ gamma_in_range gamma).
Proof.
  split.
  - intros H. unfold Shadowed.newton_D in H.
    set (n := Z.of_nat (length x_unsorted)) in *.
    destruct (negb ((n ^ n * A_MULTIPLIER / 10 <=? ANN)
                    && (ANN <=? n ^ n * A_MULTIPLIER * 100000))) eqn:EA.
    { injection H as <-. left. split; [reflexivity|].
      intros HA. apply range_check_reflect in HA. congruence. }
    apply range_check_reflect in EA.
    destruct (negb ((MIN_GAMMA <=? gamma) && (gamma <=? MAX_GAMMA))) eqn:EG.
    { injection H as <-. right. repeat split; try apply EA.
      intros HG. apply range_check_reflect in HG. congruence. }
    exfalso. revert H.
    set (P := fun e : exn => e <> CurvesimValueError msg).
    assert (HP : raises_only P
              (let! x0 := getitem (sorted_desc x_unsorted) 0 in
               let! _ := assert ((10 ^ 9 <=? x0) && (x0 <=? 10 ^ 15 * 10 ^ 18))
                           "" in
               let! _ := Shadowed.check_ratios x0
                           (tail (sorted_desc x_unsorted)) in
               let! g := geometric_mean (sorted_desc x_unsorted) false in
               Shadowed.newton_D_loop 255 ANN gamma n (sorted_desc x_unsorted)
                 (sum (sorted_desc x_unsorted)) (n * g))).
    { apply raises_only_bind; [apply raises_only_getitem; discriminate|].
      intros x0 _.
      apply raises_only_bind; [apply raises_only_assert; discriminate|].
      intros _ _.
      apply raises_only_bind;
        [apply Shadowed_check_ratios_exn; discriminate|].
      intros _ _. apply raises_only_bind.
      - eapply raises_only_mono;
          [|apply geometric_mean_raises].
        intros e [-> | [-> | ->]]; discriminate.
      - intros g _. apply Shadowed_newton_D_loop_exn; discriminate. }
    intros H. exact (HP _ H eq_refl).
  - intros [[-> HA] | [-> [HA HG]]].
    + now apply Shadowed_newton_D_unsafe_A.
    + now apply Shadowed_newton_D_unsafe_gamma.
Qed.

Lemma Shadowed_check_ratios_violation (x0 : Z) (rest : list Z) :
  x0 <> 0 ->
  Exists (fun xi => xi * 10 ^ 18 / x0 < 10 ^ 11) rest ->
  Shadowed.check_ratios x0 rest = Raise (AssertionError "").
Proof.
  intros Hx0 Hex. induction rest as [|xi rest IH]; [inversion Hex|].
  cbn [Shadowed.check_ratios]. rewrite floordiv_Ok by exact Hx0. cbn [bind].
  destruct (Z.leb_spec (10 ^ 11) (xi * 10 ^ 18 / x0)) as [Hok | Hbad];
    cbn [assert bind]; [|reflexivity].
  apply IH. inversion Hex; subst; [lia | assumption].
Qed.

(** X15.  With [ANN] and [gamma] in range and the largest balance [x0] in
    [10**9, 10**33], the earlier definition stops before iterating, at
    its bare assert, as soon as some balance [x_i] has
    [x_i * 10**18 // x0 < 10**11]. *)
Theorem Shadowed_newton_D_ratio_check
  (ANN gamma x0 xi : Z) (x_unsorted : list Z) :
  ANN_in_range (Z.of_nat (length x_unsorted)) ANN ->
  gamma_in_range gamma ->
  getitem (sorted_desc x_unsorted) 0 = Ok x0 ->
  10 ^ 9 <= x0 <= 10 ^ 15 * 10 ^ 18 ->
  xi ∈ x_unsorted -> xi * 10 ^ 18 / x0 < 10 ^ 11 ->
  Shadowed.newton_D ANN gamma x_unsorted = Raise (AssertionError "").
Proof.
  intros HA HG H0 Hx0 Hin Hbad. unfold Shadowed.newton_D.
  apply range_check_reflect in HA, HG. rewrite HA, HG.
  rewrite H0. cbn [bind].
  assert (Hr : ((10 ^ 9 <=? x0) && (x0 <=? 10 ^ 15 * 10 ^ 18)) = true).
  { apply andb_true_intro. split; apply Z.leb_le; lia. }
  rewrite Hr. cbn [assert bind].
  rewrite Shadowed_check_ratios_violation; [reflexivity | lia |].
  assert (Hin' : xi ∈ sorted_desc x_unsorted)
    by (unfold sorted_desc; now rewrite merge_sort_Permutation).
  unfold getitem in H0.
  destruct (sorted_desc x_unsorted) as [|h tl]; [discriminate|].
  cbn in H0. injection H0 as ->. cbn [tail].
  apply Exists_exists. exists xi. split; [|exact Hbad].
  apply elem_of_cons in Hin' as [-> | Htl]; [|exact Htl].
  exfalso. rewrite Z.mul_comm, Z.div_mul in Hbad by lia. lia.
Qed.

Lemma Shadowed_newton_D_ratio_check_witness :
  Shadowed.newton_D 270000 (10 ^ 15) [10 ^ 18; 10 ^ 18; 10 ^ 6]
  = Raise (AssertionError "").
Proof.
  apply (Shadowed_newton_D_ratio_check 270000 (10 ^ 15) (10 ^ 18) (10 ^ 6)
           [10 ^ 18; 10 ^ 18; 10 ^ 6]).
  - unfold ANN_in_range. vm_compute. split; discriminate.
  - unfold gamma_in_range. vm_compute. split; discriminate.
  - vm_compute. reflexivity.
  - lia.
  - repeat constructor.
  - vm_compute. reflexivity.
Defined.

Lemma Shadowed_newton_D_unsafe_parameter_witness :
  Shadowed.newton_D 1 (10 ^ 15) [10 ^ 18; 10 ^ 18; 10 ^ 18]
  = Raise (CurvesimValueError "Unsafe value for A").
Proof.
  apply (proj2 (Shadowed_newton_D_unsafe_parameter 1 (10 ^ 15)
                  [10 ^ 18; 10 ^ 18; 10 ^ 18] "Unsafe value for A")).
  left. split; [reflexivity|].
  unfold ANN_in_range. vm_compute. intros [H _]. now apply H.
Defined.

(** ** [get_p]: equal balances price at par *)

Lemma div_mul_l (a b : Z) : a <> 0 -> a * b / a = b.
Proof. intros Ha. rewrite Z.mul_comm. now apply Z.div_mul. Qed.

(** X16.  Whenever [get_p] returns, a coin whose balance equals [xp[0]] is
    priced at exactly [10**18] against it: the numerator and the
    denominator of its ratio are the same number. *)
Theorem get_p_par_when_equal (xp : list Z) (D A gamma p_xy p_xz : Z) :
  get_p xp D A gamma = Ok [p_xy; p_xz] ->
  (xp !! 1%nat = xp !! 0%nat -> p_xy = 10 ^ 18) /\
  (xp !! 2%nat = xp !! 0%nat -> p_xz = 10 ^ 18).
Proof.
  intros H. unfold get_p in H.
  apply bind_Ok_inv in H as ([] & _ & H).
  apply bind_Ok_inv in H as (xp0 & H0 & H).
  apply bind_Ok_inv in H as (xp1 & H1 & H).
  invert_floordiv H t1 Ht1 Hnz1.
  apply bind_Ok_inv in H as (xp2 & H2 & H).
  invert_floordiv H t2 Ht2 Hnz2.
  invert_floordiv H K0 HK0 Hnz3.
  invert_floordiv H td Htd Hnz4.
  invert_floordiv H ty Hty Hnz5.
  invert_floordiv H ny Hny Hnz6.
  invert_floordiv H p Hp Hnz7.
  invert_floordiv H tz Htz Hnz8.
  invert_floordiv H nz Hnz Hnz9.
  invert_floordiv H q Hq Hnz10.
  injection H as <- <-.
  unfold getitem in H0, H1, H2.
  destruct (xp !! 0%nat) as [a0|]; [|discriminate].
  destruct (xp !! 1%nat) as [a1|]; [|discriminate].
  destruct (xp !! 2%nat) as [a2|]; [|discriminate].
  injection H0 as ->. injection H1 as ->. injection H2 as ->.
  split; intros [= ->].
  - assert (E : ty = td) by (rewrite Hty, Htd; reflexivity).
    rewrite Hp, Hny, E.
    rewrite div_mul_l by assumption. apply div_mul_l. assumption.
  - assert (E : tz = td) by (rewrite Htz, Htd; reflexivity).
    rewrite Hq, Hnz, E.
    rewrite div_mul_l by assumption. apply div_mul_l. assumption.
Qed.

Lemma get_p_par_when_equal_witness :
  1000000000000000000 = 10 ^ 18.
Proof.
  apply (proj1 (get_p_par_when_equal
                  [10 ^ 18; 10 ^ 18; 2 * 10 ^ 18] (4 * 10 ^ 18) 270000
                  (10 ^ 15) 1000000000000000000 500043018775600671
                  ltac:(vm_compute; reflexivity))).
  reflexivity.
Defined.

Lemma get_p_K0_balanced (v : Z) :
  0 < v -> get_p_K0 3 v v v (3 * v) = 10 ^ 36.
Proof.
  intros Hv. unfold get_p_K0.
  replace (3 ^ 3 * v * v) with (9 * v * (3 * v)) by lia.
  rewrite Z.div_mul by lia.
  replace (9 * v * v) with (3 * v * (3 * v)) by lia.
  rewrite Z.div_mul by lia.
  apply div_mul_l. lia.
Qed.

Lemma get_p_GK0_balanced (gamma : Z) :
  get_p_GK0 (10 ^ 36) gamma = gamma ^ 2.
Proof.
  unfold get_p_GK0.
  change (2 * (10 ^ 36) ^ 2 / 10 ^ 36 * 10 ^ 36 / 10 ^ 36) with (2 * 10 ^ 36).
  change ((10 ^ 36) ^ 2 / 10 ^ 36) with (10 ^ 18 * 10 ^ 18).
  replace (10 ^ 18 * 10 ^ 18 * (2 * gamma + 3 * 10 ^ 18))
    with (10 ^ 18 * (2 * gamma + 3 * 10 ^ 18) * 10 ^ 18) by lia.
  rewrite Z.div_mul by lia. lia.
Qed.

(** X17.  On a balanced three-coin pool ([xp = [v, v, v]], [D = 3 * v]) with
    [A >= 0] and [gamma != 0], [get_p] returns both ratios at par,
    [[10**18, 10**18]]: [K0] is exactly [10**36] and [GK0] exactly
    [gamma**2]. *)
Theorem get_p_balanced (v A gamma : Z) :
  D_in_get_p_range (3 * v) -> 0 <= A -> gamma <> 0 ->
  get_p [v; v; v] (3 * v) A gamma = Ok [10 ^ 18; 10 ^ 18].
Proof.
  intros HD HA Hg.
  assert (Hv : 0 < v) by (unfold D_in_get_p_range in HD; lia).
  assert (Hden : get_p_term (10 ^ 36) (gamma ^ 2) (get_p_NNAG2 A gamma) v
                   (3 * v) <> 0).
  { unfold get_p_term, get_p_NNAG2, A_MULTIPLIER.
    assert (0 < gamma ^ 2) by nia.
    assert (0 <= A * gamma ^ 2 / 10000)
      by (apply Z.div_pos; [apply Z.mul_nonneg_nonneg|]; lia).
    assert (0 <= A * gamma ^ 2 / 10000 * v / (3 * v))
      by (apply Z.div_pos; [apply Z.mul_nonneg_nonneg|]; lia).
    assert (0 <= A * gamma ^ 2 / 10000 * v / (3 * v) * 10 ^ 36 / 10 ^ 36)
      by (apply Z.div_pos; lia).
    lia. }
  pose proof (get_p_K0_balanced v Hv) as HK.
  pose proof (get_p_GK0_balanced gamma) as HG.
  unfold get_p_term, get_p_GK0, get_p_K0, get_p_NNAG2 in *.
  unfold get_p.
  destruct (get_p_assert (3 * v)) as [[_ Ha] | [Hn _]]; [|contradiction].
  rewrite Ha. cbn [bind getitem lookup list_lookup length].
  change (Z.of_nat 3) with 3.
  repeat (rewrite (floordiv_Ok _ (3 * v)) by lia; cbn [bind]).
  rewrite HK, HG.
  repeat (first [ rewrite (floordiv_Ok _ v) by lia
                | rewrite (floordiv_Ok _ _ Hden) ];
          cbn [bind]).
  rewrite (div_mul_l v) by lia.
  rewrite div_mul_l by exact Hden. reflexivity.
Qed.

Lemma get_p_balanced_witness :
  get_p [10 ^ 20; 10 ^ 20; 10 ^ 20] (3 * 10 ^ 20) 540000000 (10 ^ 15)
  = Ok [10 ^ 18; 10 ^ 18].
Proof.
  apply (get_p_balanced (10 ^ 20) 540000000 (10 ^ 15)).
  - unfold D_in_get_p_range. lia.
  - lia.
  - lia.
Defined.

(** ** The stableswap balance setters: failure and conservation *)

Lemma D_to_balances_exn (D n : Z) (rates : list Z) :
  raises_only (fun e => e = ZeroDivisionError) (D_to_balances D n rates).
Proof.
  induction rates as [|r rest IH]; cbn [D_to_balances].
  - apply raises_only_Ok.
  - apply raises_only_bind; [now apply raises_only_floordiv|]. intros q _.
    apply raises_only_bind; [now apply raises_only_floordiv|]. intros b _.
    apply raises_only_bind; [exact IH|]. intros bs _. apply raises_only_Ok.
Qed.

Lemma D_to_balances_Ok_inv (D n : Z) (rates bs : list Z) :
  D_to_balances D n rates = Ok bs ->
  rates = [] \/ (n <> 0 /\ Forall (fun r => r <> 0) rates).
Proof.
  revert bs. induction rates as [|r rest IH]; intros bs H; [now left|].
  right. cbn [D_to_balances] in H.
  invert_floordiv H q Hq Hn. invert_floordiv H b Hb Hr.
  apply bind_Ok_inv in H as (bs' & Hrest & _).
  split; [exact Hn|]. constructor; [exact Hr|].
  destruct (IH bs' Hrest) as [-> | [_ HF]]; [constructor | exact HF].
Qed.

(** X18.  The [D] setter fails exactly when there is a rate to divide by and
    either the token count or some rate is zero; the failure is a
    [ZeroDivisionError] and no balances are written.  With no rates at
    all it succeeds even for [n = 0], storing an empty list. *)
Theorem stableswap_D_to_balances_failure (pool : Pool) (D : Z) :
  (stableswap_D_to_balances pool D = Raise ZeroDivisionError <->
   rates pool <> [] /\ (n pool = 0 \/ Exists (fun r => r = 0) (rates pool))) /\
  raises_only (fun e => e = ZeroDivisionError)
    (stableswap_D_to_balances pool D).
Proof.
  assert (Hex : raises_only (fun e => e = ZeroDivisionError)
                  (stableswap_D_to_balances pool D)).
  { unfold stableswap_D_to_balances.
    apply raises_only_bind; [apply D_to_balances_exn|].
    intros bs _. apply raises_only_Ok. }
  split; [|exact Hex]. split.
  - intros H. unfold stableswap_D_to_balances in H.
    destruct (rates pool) as [|r rest] eqn:Er; [discriminate|].
    split; [discriminate|].
    destruct (Z.eq_dec (n pool) 0) as [Hn | Hn]; [now left | right].
    destruct (decide (Exists (fun r => r = 0) (r :: rest)))
      as [He | Hne]; [exact He|].
    apply List.Forall_Exists_neg in Hne.
    rewrite (D_to_balances_Ok D (n pool) (r :: rest) Hn Hne) in H.
    discriminate.
  - intros [Hne Hbad].
    destruct (stableswap_D_to_balances pool D) as [pool'|e] eqn:E.
    + exfalso. unfold stableswap_D_to_balances in E.
      apply bind_Ok_inv in E as (bs & Hbs & _).
      destruct (D_to_balances_Ok_inv _ _ _ _ Hbs) as [He | [Hn HF]];
        [contradiction|].
      destruct Hbad as [Hn0 | Hex0]; [contradiction|].
      apply Exists_exists in Hex0 as (r & Hin & ->).
      rewrite Forall_forall in HF. now apply (HF 0 Hin).
    + f_equal. now apply Hex.
Qed.

Lemma stableswap_D_to_balances_failure_witness :
  stableswap_D_to_balances
    {| n := 0; rates := [10 ^ 18; 10 ^ 18]; balances := [] |} (10 ^ 24)
  = Raise ZeroDivisionError.
Proof.
  apply (proj2 (proj1 (stableswap_D_to_balances_failure
                  {| n := 0; rates := [10 ^ 18; 10 ^ 18]; balances := [] |}
                  (10 ^ 24)))).
  cbn. split; [discriminate | now left].
Defined.

Lemma sum_cons (a : Z) (l : list Z) : sum (a :: l) = a + sum l.
Proof.
  unfold sum. cbn [fold_left].
  assert (H : forall l b, fold_left Z.add l b = b + fold_left Z.add l 0).
  { clear. induction l as [|c l IH]; intros b; cbn [fold_left]; [lia|].
    rewrite (IH (b + c)), (IH (0 + c)). lia. }
  rewrite (H l (0 + a)). lia.
Qed.

Lemma D_to_balances_value (D n : Z) (rates bs : list Z) :
  Forall (fun r => 0 < r) rates ->
  D_to_balances D n rates = Ok bs ->
  weighted_sum bs rates <= Z.of_nat (length rates) * (D / n * 10 ^ 18) /\
  Z.of_nat (length rates) * (D / n * 10 ^ 18) - sum rates
    <= weighted_sum bs rates /\
  (rates <> [] ->
   Z.of_nat (length rates) * (D / n * 10 ^ 18) - sum rates
     < weighted_sum bs rates).
Proof.
  intros Hr. revert bs. induction Hr as [|r rest Hr0 _ IH]; intros bs H.
  - injection H as <-. cbn. repeat split; try lia. congruence.
  - cbn [D_to_balances] in H.
    invert_floordiv H q Hq Hn. invert_floordiv H b Hb Hrn.
    apply bind_Ok_inv in H as (bs' & Hrest & [= <-]).
    destruct (IH bs' Hrest) as (IH1 & IH2 & _).
    unfold weighted_sum in *. cbn [zip_with length].
    rewrite !sum_cons, Nat2Z.inj_succ. subst q.
    pose proof (Z.mul_div_le (D / n * 10 ^ 18) r Hr0) as H1.
    pose proof (Z.mul_succ_div_gt (D / n * 10 ^ 18) r Hr0) as H2.
    rewrite <- Hb in H1, H2.
    repeat split; intros; lia.
Qed.

(** X19.  What the [D] setter writes is worth at most [D]: when the pool has
    as many positive rates as its token count [n > 0], the stored balances
    satisfy [sum(balances[i] * rates[i]) <= D * 10**18], and the shortfall
    is less than [n * 10**18 + sum(rates)], the truncation of the two
    divisions. *)
Theorem stableswap_D_to_balances_conserves (pool pool' : Pool) (D : Z) :
  0 < n pool -> Z.of_nat (length (rates pool)) = n pool ->
  Forall (fun r => 0 < r) (rates pool) ->
  stableswap_D_to_balances pool D = Ok pool' ->
  weighted_sum (balances pool') (rates pool') <= D * 10 ^ 18 /\
  D * 10 ^ 18 - weighted_sum (balances pool') (rates pool')
    < n pool * 10 ^ 18 + sum (rates pool).
Proof.
  intros Hn Hlen Hr H. unfold stableswap_D_to_balances in H.
  apply bind_Ok_inv in H as (bs & Hbs & [= <-]). cbn [balances rates].
  destruct (D_to_balances_value D (n pool) (rates pool) bs Hr Hbs)
    as (H1 & _ & H3).
  assert (Hne : rates pool <> [])
    by (intros E; rewrite E in Hlen; cbn in Hlen; lia).
  specialize (H3 Hne). rewrite Hlen in H1, H3.
  pose proof (Z.mul_div_le D (n pool) Hn) as Hq1.
  pose proof (Z.mul_succ_div_gt D (n pool) Hn) as Hq2.
  split; nia.
Qed.

Lemma stableswap_D_to_balances_conserves_witness :
  weighted_sum [10 ^ 24; 10 ^ 12; 10 ^ 12] [10 ^ 18; 10 ^ 30; 10 ^ 30]
  <= 3 * 10 ^ 24 * 10 ^ 18.
Proof.
  apply (stableswap_D_to_balances_conserves
           {| n := 3; rates := [10 ^ 18; 10 ^ 30; 10 ^ 30]; balances := [] |}
           {| n := 3; rates := [10 ^ 18; 10 ^ 30; 10 ^ 30];
              balances := [10 ^ 24; 10 ^ 12; 10 ^ 12] |}
           (3 * 10 ^ 24)).
  - cbn. lia.
  - reflexivity.
  - cbn. repeat constructor.
  - vm_compute. reflexivity.
Defined.

(** ** [_cbrt]: what the seven Newton lines reach *)

Lemma cbrt_phases (x : Z) :
  _cbrt x = (let! a := cbrt_run (cbrt_scaled x) in Ok (a * cbrt_unscale x)).
Proof.
  unfold _cbrt, cbrt_run, cbrt_scaled, cbrt_unscale, cbrt_guess.
  destruct (CBRT_BOUND * 10 ^ 18 <=? x); [|destruct (CBRT_BOUND <=? x)];
    cbv zeta;
    repeat (destruct (cbrt_newton _ _); cbn [bind]; [|reflexivity]);
    f_equal; lia.
Qed.

Lemma cbrt_newton_next (xx a : Z) :
  a <> 0 -> cbrt_newton xx a = Ok (cbrt_next xx a).
Proof.
  intros Ha. unfold cbrt_newton, cbrt_next.
  rewrite floordiv_Ok by nia. reflexivity.
Qed.

Lemma cube_le_mono (a b : Z) : 0 <= a <= b -> a * a * a <= b * b * b.
Proof.
  intros [Ha Hab].
  assert (H2 : 0 <= a * a <= b * b) by nia.
  apply Z.mul_le_mono_nonneg; lia.
Qed.

Lemma cube_lt_inv (a b : Z) : 0 <= b -> a * a * a < b * b * b -> a < b.
Proof.
  intros Hb H. destruct (Z_lt_le_dec a b) as [|Hge]; [assumption|exfalso].
  pose proof (cube_le_mono b a ltac:(lia)). lia.
Qed.

(** Every non-negative integer has an integer cube root. *)
Lemma cube_root_exists (xx : Z) :
  0 <= xx -> exists s, 0 <= s /\ s * s * s <= xx < (s + 1) * (s + 1) * (s + 1).
Proof.
  revert xx. apply natlike_ind.
  - exists 0. lia.
  - intros x Hx (s & Hs & Hlo & Hhi).
    destruct (Z_lt_le_dec (Z.succ x) ((s + 1) * (s + 1) * (s + 1)))
      as [Hlt | Hge].
    + exists s. lia.
    + exists (s + 1). split; [lia|]. split; [lia|].
      pose proof (cube_le_mono (s + 1) (s + 1 + 1) ltac:(lia)). nia.
Qed.

(** A Newton line never lands below the integer cube root. *)
Lemma cbrt_next_ge (xx a s : Z) :
  0 < a -> 0 <= s -> s * s * s <= xx -> s <= cbrt_next xx a.
Proof.
  intros Ha Hs Hxx. unfold cbrt_next.
  apply Z.div_le_lower_bound; [lia|].
  assert (Hq : 3 * s - 2 * a <= xx / (a * a)).
  { apply Z.div_le_lower_bound; [nia|].
    assert (Hsq : 0 <= (s - a) * (s - a) * (s + 2 * a))
      by (apply Z.mul_nonneg_nonneg; [apply Z.square_nonneg | lia]).
    assert (E : s * s * s - a * a * (3 * s - 2 * a)
                = (s - a) * (s - a) * (s + 2 * a)) by ring.
    lia. }
  lia.
Qed.

(** From at or above [t = s + 1], a line squares the relative excess
    over [t]. *)
Lemma cbrt_next_contract (xx a t K : Z) :
  0 <= xx < t * t * t -> 0 < t <= a -> 0 < K -> K * (a - t) <= t ->
  K * K * (cbrt_next xx a - t) <= t.
Proof.
  intros [Hxx0 Hxx] [Ht Hta] HK HKa. unfold cbrt_next.
  set (q := xx / (a * a)). set (N := (2 * a + q) / 3).
  assert (Haa : 0 < a * a) by nia.
  assert (Hq : a * a * q <= xx) by (apply Z.mul_div_le; lia).
  assert (HN : 3 * N <= 2 * a + q) by (apply Z.mul_div_le; lia).
  destruct (Z_le_gt_dec N t) as [Hle | Hgt]; [nia|].
  assert (H1 : a * a * (3 * N) <= a * a * (2 * a + q))
    by (apply Z.mul_le_mono_nonneg_l; lia).
  assert (E : 2 * (a * a * a) + t * t * t - 3 * (a * a * t)
              = (a - t) * (a - t) * (2 * a + t)) by ring.
  assert (H2 : (a - t) * (a - t) * (2 * a + t) <= (a - t) * (a - t) * (3 * a))
    by (apply Z.mul_le_mono_nonneg_l; [apply Z.square_nonneg | lia]).
  assert (H3 : a * (a * (N - t)) < a * ((a - t) * (a - t))) by lia.
  apply Z.mul_lt_mono_pos_l in H3; [|lia].
  assert (H4 : t * (N - t) <= a * (N - t))
    by (apply Z.mul_le_mono_nonneg_r; lia).
  assert (H5 : (K * (a - t)) * (K * (a - t)) <= t * t)
    by (apply Z.mul_le_mono_nonneg; nia).
  assert (H6 : t * (K * K * (N - t)) < t * t).
  { replace (t * (K * K * (N - t))) with (K * K * (t * (N - t))) by ring.
    apply Z.le_lt_trans with (K * K * ((a - t) * (a - t) - 1)); [|lia].
    apply Z.mul_le_mono_nonneg_l; [nia | lia]. }
  apply Z.mul_lt_mono_pos_l in H6; lia.
Qed.

(** From the root itself a line stays within one unit. *)
Lemma cbrt_next_at_root (xx s : Z) :
  4 <= s -> xx < (s + 1) * (s + 1) * (s + 1) -> cbrt_next xx s <= s + 1.
Proof.
  intros Hs Hxx. unfold cbrt_next.
  assert (Hq : xx / (s * s) < s + 4) by (apply Z.div_lt_upper_bound; nia).
  apply Z.div_le_upper_bound; lia.
Qed.

(** One line inside the region [s <= a], [K * (a - (s + 1)) <= s + 1]
    stays inside it with [K] squared. *)
Lemma cbrt_next_region (xx s a K : Z) :
  4 <= s -> s * s * s <= xx < (s + 1) * (s + 1) * (s + 1) ->
  0 < K -> s <= a -> K * (a - (s + 1)) <= s + 1 ->
  s <= cbrt_next xx a /\ K * K * (cbrt_next xx a - (s + 1)) <= s + 1.
Proof.
  intros Hs [Hlo Hhi] HK Ha HKa.
  split; [apply cbrt_next_ge; lia|].
  destruct (Z.eq_dec a s) as [-> | Hne].
  - pose proof (cbrt_next_at_root xx s Hs Hhi). nia.
  - apply cbrt_next_contract; first [lia | nia].
Qed.

(** The first line, from a guess within [-10%, +30%] of [t], lands
    within an eighth above [t]. *)
Lemma cbrt_next_first (xx a t : Z) :
  0 <= xx < t * t * t -> 0 < a -> 9 * a <= 10 * t <= 13 * a ->
  8 * (cbrt_next xx a - t) <= t.
Proof.
  intros [Hxx0 Hxx] Ha [Hlo Hhi]. unfold cbrt_next.
  set (q := xx / (a * a)). set (N := (2 * a + q) / 3).
  assert (Haa : 0 < a * a) by nia.
  assert (Hq : a * a * q <= xx) by (apply Z.mul_div_le; lia).
  assert (HN : 3 * N <= 2 * a + q) by (apply Z.mul_div_le; lia).
  assert (H1 : a * a * (3 * N) <= a * a * (2 * a + q))
    by (apply Z.mul_le_mono_nonneg_l; lia).
  assert (Hpoly : 16 * (a * a * a) + 8 * (t * t * t) <= 27 * (a * a * t)).
  { set (h := t - a). replace t with (a + h) by (subst h; lia).
    assert (E : 27 * (a * a * (a + h)) - 16 * (a * a * a)
                - 8 * ((a + h) * (a + h) * (a + h))
                = 3 * (a * a * a) + 3 * (a * a * h) - 24 * (a * (h * h))
                  - 8 * (h * h * h)) by ring.
    assert (Hh : - a <= 10 * h <= 3 * a) by (subst h; lia).
    clearbody h.
    destruct (Z_le_gt_dec 0 h) as [Hpos | Hneg].
    - assert (S1 : 100 * (h * h) <= 9 * (a * a)) by nia.
      assert (S2 : a * (100 * (h * h)) <= a * (9 * (a * a)))
        by (apply Z.mul_le_mono_nonneg_l; lia).
      assert (S3 : h * (100 * (h * h)) <= h * (9 * (a * a)))
        by (apply Z.mul_le_mono_nonneg_l; lia).
      assert (S4 : (10 * h) * (a * a) <= (3 * a) * (a * a))
        by (apply Z.mul_le_mono_nonneg_r; lia).
      assert (S5 : 0 <= a * a * h) by (apply Z.mul_nonneg_nonneg; lia).
      lia.
    - assert (S1 : 100 * (h * h) <= a * a) by nia.
      assert (S2 : a * (100 * (h * h)) <= a * (a * a))
        by (apply Z.mul_le_mono_nonneg_l; lia).
      assert (S3 : (- (10 * h)) * (a * a) <= a * (a * a))
        by (apply Z.mul_le_mono_nonneg_r; lia).
      assert (S4 : 0 <= (- h) * (h * h))
        by (apply Z.mul_nonneg_nonneg; [lia | apply Z.square_nonneg]).
      lia. }
  assert (H2 : a * a * (24 * N) < a * a * (27 * t)) by lia.
  apply Z.mul_lt_mono_pos_l in H2; lia.
Qed.

Lemma pow2_split (L : Z) :
  0 <= L -> 2 ^ L = 2 ^ (L / 3) * 2 ^ (L / 3) * 2 ^ (L / 3) * 2 ^ (L mod 3).
Proof.
  intros HL.
  pose proof (Z.div_mod L 3 ltac:(lia)) as E.
  pose proof (Z.mod_pos_bound L 3 ltac:(lia)) as Hr.
  assert (Hp : 0 <= L / 3) by (apply Z.div_pos; lia).
  rewrite E at 1.
  replace (3 * (L / 3) + L mod 3) with (L / 3 + L / 3 + L / 3 + L mod 3)
    by lia.
  rewrite !Z.pow_add_r by lia. reflexivity.
Qed.

(** The guess is within the range the first line needs. *)
Lemma cbrt_guess_bounds (xx : Z) :
  2 ^ 30 <= xx < 2 ^ 256 ->
  100 <= cbrt_guess xx /\
  729 * (cbrt_guess xx * cbrt_guess xx * cbrt_guess xx) <= 1000 * xx /\
  1000 * xx <= 2140 * (cbrt_guess xx * cbrt_guess xx * cbrt_guess xx).
Proof.
  intros Hxx. unfold cbrt_guess.
  rewrite (snekmate_log_2_floor xx) by lia. cbv zeta.
  set (L := Z.log2 xx).
  pose proof (Z.log2_spec xx ltac:(lia)) as [Hlo Hhi]. fold L in Hlo, Hhi.
  assert (HL : 30 <= L) by (apply Z.log2_le_pow2; lia).
  rewrite (pow2_split L) in Hlo by lia.
  replace (Z.succ L) with (L + 1) in Hhi by lia.
  rewrite Z.pow_add_r, (pow2_split L) in Hhi by lia.
  assert (Hp : 10 <= L / 3) by (apply Z.div_le_lower_bound; lia).
  assert (Hu : 2 ^ 10 <= 2 ^ (L / 3)) by (apply Z.pow_le_mono_r; lia).
  change (2 ^ 10) with 1024 in Hu. change (2 ^ 1) with 2 in Hhi.
  set (u := 2 ^ (L / 3)) in *. clearbody u.
  pose proof (Z.mod_pos_bound L 3 ltac:(lia)) as Hr.
  assert (Hcases : L mod 3 = 0 \/ L mod 3 = 1 \/ L mod 3 = 2) by lia.
  set (uuu := u * u * u) in *.
  assert (Huuu : 0 < uuu) by (subst uuu; nia).
  clearbody L.
  destruct Hcases as [E | [E | E]]; rewrite E in *.
  - change (1260 ^ 0) with 1. change (1000 ^ 0) with 1.
    change (2 ^ 0) with 1 in Hlo, Hhi.
    rewrite Z.mul_1_r, Z.div_1_r. fold uuu. lia.
  - change (1260 ^ 1) with 1260. change (1000 ^ 1) with 1000.
    change (2 ^ 1) with 2 in Hlo, Hhi.
    set (a := u * 1260 / 1000).
    assert (Ha1 : 1000 * a <= u * 1260) by (apply Z.mul_div_le; lia).
    assert (Ha2 : u * 1260 < 1000 * (a + 1))
      by (replace (a + 1) with (Z.succ a) by lia;
          apply Z.mul_succ_div_gt; lia).
    assert (Ha0 : 0 <= a) by (apply Z.div_pos; lia).
    pose proof (cube_le_mono (1000 * a) (1260 * u) ltac:(lia)) as C1.
    pose proof (cube_le_mono (1259 * u) (1000 * a) ltac:(lia)) as C2.
    replace (1000 * a * (1000 * a) * (1000 * a))
      with (1000000000 * (a * a * a)) in C1, C2 by ring.
    replace (1260 * u * (1260 * u) * (1260 * u))
      with (2000376000 * uuu) in C1 by (subst uuu; ring).
    replace (1259 * u * (1259 * u) * (1259 * u))
      with (1995616979 * uuu) in C2 by (subst uuu; ring).
    lia.
  - change (1260 ^ 2) with 1587600. change (1000 ^ 2) with 1000000.
    change (2 ^ 2) with 4 in Hlo, Hhi.
    set (a := u * 1587600 / 1000000).
    assert (Ha1 : 1000000 * a <= u * 1587600) by (apply Z.mul_div_le; lia).
    assert (Ha2 : u * 1587600 < 1000000 * (a + 1))
      by (replace (a + 1) with (Z.succ a) by lia;
          apply Z.mul_succ_div_gt; lia).
    assert (Ha0 : 0 <= a) by (apply Z.div_pos; lia).
    pose proof (cube_le_mono (10000 * a) (15876 * u) ltac:(lia)) as C1.
    pose proof (cube_le_mono (15866 * u) (10000 * a) ltac:(lia)) as C2.
    replace (10000 * a * (10000 * a) * (10000 * a))
      with (1000000000000 * (a * a * a)) in C1, C2 by ring.
    replace (15876 * u * (15876 * u) * (15876 * u))
      with (4001504141376 * uuu) in C1 by (subst uuu; ring).
    replace (15866 * u * (15866 * u) * (15866 * u))
      with (3993947481896 * uuu) in C2 by (subst uuu; ring).
    lia.
Qed.

(** On a scaled input between [2**30] and [2**256] the seven lines all
    run and end on the integer cube root or one above it. *)
Lemma cbrt_run_correct (xx : Z) :
  2 ^ 30 <= xx < 2 ^ 256 ->
  exists a, cbrt_run xx = Ok a /\
            (a - 1) * (a - 1) * (a - 1) <= xx < (a + 1) * (a + 1) * (a + 1).
Proof.
  intros Hxx.
  destruct (cube_root_exists xx ltac:(lia)) as (s & Hs0 & Hlo & Hhi).
  assert (Hs4 : 4 <= s).
  { destruct (Z_le_gt_dec 4 s) as [|Hlt]; [assumption|exfalso].
    pose proof (cube_le_mono (s + 1) 4 ltac:(lia)). lia. }
  assert (Hs86 : s < 2 ^ 86).
  { destruct (Z_lt_le_dec s (2 ^ 86)) as [|Hge]; [assumption|exfalso].
    pose proof (cube_le_mono (2 ^ 86) s ltac:(lia)). lia. }
  destruct (cbrt_guess_bounds xx Hxx) as (Hg100 & Hg1 & Hg2).
  set (a0 := cbrt_guess xx) in *.
  assert (HA : 9 * a0 <= 10 * (s + 1)).
  { assert (9 * a0 < 10 * (s + 1)); [|lia].
    apply cube_lt_inv; [lia|].
    replace (9 * a0 * (9 * a0) * (9 * a0)) with (729 * (a0 * a0 * a0)) by ring.
    replace (10 * (s + 1) * (10 * (s + 1)) * (10 * (s + 1)))
      with (1000 * ((s + 1) * (s + 1) * (s + 1))) by ring.
    lia. }
  assert (HB : 10 * (s + 1) <= 13 * a0).
  { assert (100 * s < 129 * a0 + 1); [|lia].
    apply cube_lt_inv; [lia|].
    replace (100 * s * (100 * s) * (100 * s))
      with (1000000 * (s * s * s)) by ring.
    replace ((129 * a0 + 1) * (129 * a0 + 1) * (129 * a0 + 1))
      with (2146689 * (a0 * a0 * a0) + 49923 * (a0 * a0) + 387 * a0 + 1)
      by ring.
    assert (0 <= a0 * a0) by apply Z.square_nonneg.
    assert (0 < a0 * a0 * a0) by nia.
    lia. }
  unfold cbrt_run. fold a0.
  rewrite (cbrt_newton_next xx a0) by lia. cbn [bind].
  set (a1 := cbrt_next xx a0).
  assert (G1 : s <= a1 /\ 8 * (a1 - (s + 1)) <= s + 1).
  { split; [apply cbrt_next_ge; lia | apply cbrt_next_first; lia]. }
  rewrite (cbrt_newton_next xx a1) by lia. cbn [bind].
  set (a2 := cbrt_next xx a1).
  pose proof (cbrt_next_region xx s a1 8 Hs4 (conj Hlo Hhi) ltac:(lia)
                (proj1 G1) (proj2 G1)) as G2. fold a2 in G2.
  rewrite (cbrt_newton_next xx a2) by lia. cbn [bind].
  set (a3 := cbrt_next xx a2).
  pose proof (cbrt_next_region xx s a2 (8 * 8) Hs4 (conj Hlo Hhi) ltac:(lia)
                (proj1 G2) (proj2 G2)) as G3. fold a3 in G3.
  rewrite (cbrt_newton_next xx a3) by lia. cbn [bind].
  set (a4 := cbrt_next xx a3).
  pose proof (cbrt_next_region xx s a3 (8 * 8 * (8 * 8)) Hs4 (conj Hlo Hhi)
                ltac:(lia) (proj1 G3) (proj2 G3)) as G4. fold a4 in G4.
  rewrite (cbrt_newton_next xx a4) by lia. cbn [bind].
  set (a5 := cbrt_next xx a4).
  set (K4 := 8 * 8 * (8 * 8) * (8 * 8 * (8 * 8))) in *.
  pose proof (cbrt_next_region xx s a4 K4 Hs4 (conj Hlo Hhi)
                ltac:(subst K4; lia) (proj1 G4) (proj2 G4)) as G5.
  fold a5 in G5.
  rewrite (cbrt_newton_next xx a5) by lia. cbn [bind].
  set (a6 := cbrt_next xx a5).
  pose proof (cbrt_next_region xx s a5 (K4 * K4) Hs4 (conj Hlo Hhi)
                ltac:(subst K4; lia) (proj1 G5) (proj2 G5)) as G6.
  fold a6 in G6.
  rewrite (cbrt_newton_next xx a6) by lia.
  set (a7 := cbrt_next xx a6).
  pose proof (cbrt_next_region xx s a6 (K4 * K4 * (K4 * K4)) Hs4
                (conj Hlo Hhi) ltac:(subst K4; lia) (proj1 G6) (proj2 G6))
    as G7. fold a7 in G7.
  exists a7. split; [reflexivity|].
  assert (Hle : a7 <= s + 1) by (subst K4; lia).
  destruct G7 as [Hge _].
  pose proof (cube_le_mono (a7 - 1) s ltac:(lia)).
  pose proof (cube_le_mono (s + 1) (a7 + 1) ltac:(lia)).
  lia.
Qed.

(** X4.  For [x] from [CBRT_BOUND * 10**18] up to 256 bits, [_cbrt] returns
    [a * 10**12] with [a] the integer cube root of [x] or one above it. *)
Theorem cbrt_top_branch (x : Z) :
  CBRT_BOUND * 10 ^ 18 <= x < 2 ^ 256 ->
  exists a, _cbrt x = Ok (a * 10 ^ 12) /\ (a - 1) ^ 3 <= x < (a + 1) ^ 3.
Proof.
  intros Hx. rewrite cbrt_phases. unfold cbrt_scaled, cbrt_unscale.
  assert (E1 : (CBRT_BOUND * 10 ^ 18 <=? x) = true) by (apply Z.leb_le; lia).
  rewrite E1.
  destruct (cbrt_run_correct x) as (a & Hrun & Ha);
    [unfold CBRT_BOUND in Hx; lia|].
  exists a. rewrite Hrun. cbn [bind]. split; [reflexivity|].
  replace ((a - 1) ^ 3) with ((a - 1) * (a - 1) * (a - 1)) by ring.
  replace ((a + 1) ^ 3) with ((a + 1) * (a + 1) * (a + 1)) by ring.
  exact Ha.
Qed.

Lemma cbrt_top_branch_witness :
  exists a, _cbrt (8 * 10 ^ 60) = Ok (a * 10 ^ 12) /\
            (a - 1) ^ 3 <= 8 * 10 ^ 60 < (a + 1) ^ 3.
Proof.
  apply (cbrt_top_branch (8 * 10 ^ 60)). unfold CBRT_BOUND. lia.
Defined.

(** X5.  For [x] from [CBRT_BOUND] up to [CBRT_BOUND * 10**18], [_cbrt]
    returns [a * 10**6] with [a] the integer cube root of [x * 10**18] or
    one above it: the cube root of [x] in 10**18 fixed point, to within
    [10**6]. *)
Theorem cbrt_middle_branch_root (x : Z) :
  CBRT_BOUND <= x < CBRT_BOUND * 10 ^ 18 ->
  exists a, _cbrt x = Ok (a * 10 ^ 6) /\
            (a - 1) ^ 3 <= x * 10 ^ 18 < (a + 1) ^ 3.
Proof.
  intros Hx. rewrite cbrt_phases. unfold cbrt_scaled, cbrt_unscale.
  assert (E1 : (CBRT_BOUND * 10 ^ 18 <=? x) = false) by (apply Z.leb_gt; lia).
  assert (E2 : (CBRT_BOUND <=? x) = true) by (apply Z.leb_le; lia).
  rewrite E1, E2.
  destruct (cbrt_run_correct (x * 10 ^ 18)) as (a & Hrun & Ha);
    [unfold CBRT_BOUND in Hx; lia|].
  exists a. rewrite Hrun. cbn [bind]. split; [reflexivity|].
  replace ((a - 1) ^ 3) with ((a - 1) * (a - 1) * (a - 1)) by ring.
  replace ((a + 1) ^ 3) with ((a + 1) * (a + 1) * (a + 1)) by ring.
  exact Ha.
Qed.

Lemma cbrt_middle_branch_root_witness :
  exists a, _cbrt (10 ^ 42) = Ok (a * 10 ^ 6) /\
            (a - 1) ^ 3 <= 10 ^ 42 * 10 ^ 18 < (a + 1) ^ 3.
Proof.
  apply (cbrt_middle_branch_root (10 ^ 42)). unfold CBRT_BOUND. lia.
Defined.

(** X6.  Below [CBRT_BOUND] the input is multiplied by [10 * 36]: from
    [3 * 10**6] on, [_cbrt] returns the integer cube root of [360 * x] or
    one above it. *)
Theorem cbrt_low_branch_root (x : Z) :
  3 * 10 ^ 6 <= x < CBRT_BOUND ->
  exists a, _cbrt x = Ok a /\ (a - 1) ^ 3 <= 360 * x < (a + 1) ^ 3.
Proof.
  intros Hx. rewrite cbrt_phases. unfold cbrt_scaled, cbrt_unscale.
  assert (E1 : (CBRT_BOUND * 10 ^ 18 <=? x) = false) by (apply Z.leb_gt; lia).
  assert (E2 : (CBRT_BOUND <=? x) = false) by (apply Z.leb_gt; lia).
  rewrite E1, E2.
  destruct (cbrt_run_correct (x * 10 * 36)) as (a & Hrun & Ha);
    [unfold CBRT_BOUND in Hx; lia|].
  exists a. rewrite Hrun. cbn [bind]. split; [f_equal; lia|].
  replace ((a - 1) ^ 3) with ((a - 1) * (a - 1) * (a - 1)) by ring.
  replace ((a + 1) ^ 3) with ((a + 1) * (a + 1) * (a + 1)) by ring.
  lia.
Qed.

Lemma cbrt_low_branch_root_witness :
  exists a, _cbrt (10 ^ 18) = Ok a /\
            (a - 1) ^ 3 <= 360 * 10 ^ 18 < (a + 1) ^ 3.
Proof.
  apply (cbrt_low_branch_root (10 ^ 18)). unfold CBRT_BOUND. lia.
Defined.
